(** * PubMedScraper: query construction and record normalisation

    A shallow embedding of [src/config.py] and of the methods of
    [PubMedScraper] in [src/main.py], followed by the properties of the
    query builder, of the record normaliser and of the run loop.

    Python [str] values are modelled as [string]: sequences of code points
    below 256 (the Latin-1 range).  On that range [\d] is the ten ASCII
    digits, [\s] is the twelve code points of [is_space] and [str.lower]
    works character by character. *)

From Stdlib Require Import String Ascii List Arith Bool Lia.
From stdpp Require Import base option gmap strings.
Import ListNotations.

Local Open Scope string_scope.
Local Open Scope list_scope.
Local Open Scope bool_scope.

(* ------------------------------------------------------------------ *)
(** ** Python string operations *)

Module PyStr.

(** The double-quote character. *)
Definition dq : ascii := ascii_of_nat 34.

(** [c] as a one-character string. *)
Definition chr (c : ascii) : string := String c "".

(** ["s"], the text [s] between double quotes. *)
Definition quoted (s : string) : string := String dq (s +:+ chr dq).

(** [str.lower] on one code point below 256: [A-Z] and the upper-case
    letters of U+00C0..U+00DE (all but the multiplication sign U+00D7) move
    up by 32. *)
Definition lower_char (c : ascii) : ascii :=
  let n := nat_of_ascii c in
  if (((65 <=? n) && (n <=? 90)) ||
      ((192 <=? n) && (n <=? 222) && negb (n =? 215)))%nat
  then ascii_of_nat (n + 32) else c.

(** [s.lower()] *)
Fixpoint lower (s : string) : string :=
  match s with
  | "" => ""
  | String c s' => String (lower_char c) (lower s')
  end.

(** [s.startswith(p)] *)
Fixpoint startswith (p s : string) : bool :=
  match p, s with
  | "", _ => true
  | String _ _, "" => false
  | String a p', String b s' => Ascii.eqb a b && startswith p' s'
  end.

(** [p in s] *)
Fixpoint contains (p s : string) : bool :=
  startswith p s ||
  match s with
  | "" => false
  | String _ s' => contains p s'
  end.

(** The number of positions of [s] at which [p] starts (overlapping
    occurrences counted). *)
Fixpoint count_sub (p s : string) : nat :=
  (if startswith p s then 1 else 0) +
  match s with
  | "" => 0
  | String _ s' => count_sub p s'
  end.

(** [s[n:]] *)
Fixpoint sdrop (n : nat) (s : string) : string :=
  match n, s with
  | O, _ => s
  | S _, "" => ""
  | S n', String _ s' => sdrop n' s'
  end.

(** [s.split(sep)] for a non-empty [sep]: [s] is scanned left to right;
    [skip] counts the characters of a separator just found that are still
    to be passed over, [cur] is the piece being built. *)
Fixpoint split_go (sep s : string) (skip : nat) (cur : string) : list string :=
  match s with
  | "" => [cur]
  | String c s' =>
      match skip with
      | S k => split_go sep s' k cur
      | O =>
          if startswith sep s
          then cur :: split_go sep s' (String.length sep - 1) ""
          else split_go sep s' 0 (cur +:+ chr c)
      end
  end.

Definition split (sep s : string) : list string := split_go sep s 0 "".

(** [\d] *)
Definition is_digit (c : ascii) : bool :=
  let n := nat_of_ascii c in ((48 <=? n) && (n <=? 57))%nat.

(** [\s]: Python's white space below 256. *)
Definition is_space (c : ascii) : bool :=
  let n := nat_of_ascii c in
  (((9 <=? n) && (n <=? 13)) || ((28 <=? n) && (n <=? 32)) ||
   (n =? 133) || (n =? 160))%nat.

(** The longest prefix of [s] whose characters all satisfy [f]. *)
Fixpoint take_while (f : ascii -> bool) (s : string) : string :=
  match s with
  | "" => ""
  | String c s' => if f c then String c (take_while f s') else ""
  end.

Fixpoint forallb (f : ascii -> bool) (s : string) : bool :=
  match s with
  | "" => true
  | String c s' => f c && forallb f s'
  end.

(** [re.search]: the pattern, given as its matcher at one position, is
    tried at every position from the left, the end of the text included. *)
Fixpoint re_search (m : string -> option string) (s : string) : option string :=
  match m s with
  | Some r => Some r
  | None =>
      match s with
      | "" => None
      | String _ s' => re_search m s'
      end
  end.

(** [\d{4}] at the start of the text. *)
Definition match_d4 (s : string) : option string :=
  match s with
  | String a (String b (String c (String d _))) =>
      if is_digit a && is_digit b && is_digit c && is_digit d
      then Some (String a (String b (String c (String d ""))))
      else None
  | _ => None
  end.

(** [(10\.\S+)] at the start of the text: the greedy [\S+] is the last
    item, so it takes the whole run of non-space characters. *)
Definition match_doi (s : string) : option string :=
  match s with
  | String "1" (String "0" (String "." rest)) =>
      match take_while (fun c => negb (is_space c)) rest with
      | "" => None
      | run => Some ("10." +:+ run)
      end
  | _ => None
  end.

End PyStr.
Import PyStr.

(* ------------------------------------------------------------------ *)
(** ** config.py *)

Module config.

Definition RCT_QUERY : string :=
  "(" +:+ quoted "Randomized Controlled Trial" +:+ "[Publication Type] OR " +:+
  quoted "Randomized Controlled Trials as Topic" +:+ "[MeSH Terms] OR " +:+
  quoted "Random Allocation" +:+ "[MeSH Terms] OR " +:+
  quoted "randomized" +:+ "[Title/Abstract] OR " +:+
  quoted "randomised" +:+ "[Title/Abstract] OR " +:+
  quoted "randomly" +:+ "[Title/Abstract])".

Definition CRITICAL_QUERY : string :=
  "(" +:+
  quoted "critical care" +:+ "[MeSH Terms] OR " +:+
  quoted "intensive care units" +:+ "[MeSH Terms] OR " +:+
  quoted "critical illness" +:+ "[MeSH Terms] OR " +:+
  quoted "ICU" +:+ "[Title/Abstract] OR " +:+
  quoted "high dependency unit*" +:+ "[Title/Abstract] OR " +:+
  quoted "respiration, artificial" +:+ "[MeSH Terms] OR " +:+
  quoted "intensive care" +:+ "[Title/Abstract] OR " +:+
  quoted "intensive care unit" +:+ "[Title/Abstract] OR " +:+
  quoted "critical illness" +:+ "[Title/Abstract] OR " +:+
  quoted "Critical Care" +:+ "[Title/Abstract] OR " +:+
  quoted "critical ill*" +:+ "[Title/Abstract] OR " +:+
  quoted "Intensive therapy" +:+ "[Title/Abstract] OR " +:+
  quoted "mechanical ventilation" +:+ "[Title/Abstract] OR " +:+
  quoted "mechanical ventilat*" +:+ "[Title/Abstract]) OR " +:+
  "(" +:+ quoted "mechanical" +:+ "[Title/Abstract] AND " +:+
  quoted "ventilation" +:+ "[Title/Abstract])" +:+
  ")".

Definition HUMANS_FILTER : string := quoted "humans" +:+ "[MeSH Terms]".

Definition EXCLUSION_QUERY : string :=
  "NOT (" +:+ quoted "systematic review" +:+ "[Publication Type] OR " +:+
  quoted "Meta-Analysis" +:+ "[Publication Type] OR " +:+
  quoted "Review" +:+ "[Publication Type])".

Definition JOURNALS : list string :=
  [ "The New England Journal of Medicine";
    "Lancet";
    "JAMA";
    "American Journal of Respiratory and Critical Care Medicine";
    "Intensive Care Medicine";
    "Critical Care Medicine";
    "Critical care";
    "Chest";
    "BMJ";
    "Annals of Intensive care";
    "JAMA Internal Medicine";
    "JAMA Network Open";
    "Annals of the American Thoracic Society" ].

Definition DATE_QUERY : string :=
  "(" +:+ quoted "2020/01/01" +:+ "[PDAT]:" +:+ quoted "2025/01/01" +:+ "[PDAT])".

(** [LINK_TEMPLATE], as the text before and after its one field [{pmid}]. *)
Definition LINK_TEMPLATE : string * string :=
  ("https://pubmed.ncbi.nlm.nih.gov/", "/").

Definition OUTPUT_HEADERS : list string :=
  [ "Journal_TTL";
    "Journal_ABBRV";
    "Title";
    "Year";
    "Pages";
    "Issue";
    "Volume";
    "First Author";
    "First Author Affiliation";
    "Last Author";
    "Last Author Affiliation";
    "DOI";
    "Link";
    "Authors" ].

End config.

(* ------------------------------------------------------------------ *)
(** ** PubMedScraper.construct_query *)

Definition construct_query (journal : string) : string :=
  let journal_query := quoted journal +:+ "[Journal]" in
  ("(" +:+ config.RCT_QUERY +:+ " AND " +:+ config.CRITICAL_QUERY +:+
   " AND (" +:+ journal_query +:+ ") AND " +:+ config.DATE_QUERY +:+ " ") +:+
  ((if String.eqb (lower journal) "annals of intensive care"
    then ")"
    else "AND " +:+ config.HUMANS_FILTER +:+ ")") +:+ " ") +:+
  ("NOT " +:+ config.EXCLUSION_QUERY).

(* ------------------------------------------------------------------ *)
(** ** Records, rows and exceptions *)

(** A field of a MEDLINE record as [Medline.parse] yields it: one string or
    a list of strings. *)
Inductive value : Type :=
  | VStr (s : string)
  | VList (l : list string).

(** A raw record, [Dict[str, Any]], keyed by field tag. *)
Abbreviation Rec := (gmap string value).

(** A normalised row: the dict literal of [process_record], its items in
    insertion order.  The empty dict is [[]]. *)
Definition Row : Type := list (string * value).

Inductive exn : Type :=
  | TypeError
  | IndexError
  | KeyError
  | ServiceError (msg : string).

(** The outcome of a block that may raise. *)
Inductive result (A : Type) : Type :=
  | Ok (a : A)
  | Raise (e : exn).
Arguments Ok {A} a.
Arguments Raise {A} e.

#[global] Instance result_ret : MRet result := fun A a => Ok a.
#[global] Instance result_bind : MBind result := fun A B f m =>
  match m with
  | Ok a => f a
  | Raise e => Raise e
  end.

Module Py.

(** [rec.get(key, default)] *)
Definition get (rec : Rec) (key : string) (default : value) : value :=
  match rec !! key with
  | Some v => v
  | None => default
  end.

(** [key in rec] *)
Definition has (rec : Rec) (key : string) : bool :=
  match rec !! key with
  | Some _ => true
  | None => false
  end.

(** [rec[key]] *)
Definition getitem (rec : Rec) (key : string) : result value :=
  match rec !! key with
  | Some v => Ok v
  | None => Raise KeyError
  end.

(** Truth value of a string, of a field and of a dict. *)
Definition truthy_str (s : string) : bool :=
  match s with
  | "" => false
  | String _ _ => true
  end.

Definition truthy (v : value) : bool :=
  match v with
  | VStr s => truthy_str s
  | VList [] => false
  | VList (_ :: _) => true
  end.

Definition truthy_dict (d : Row) : bool :=
  match d with
  | [] => false
  | _ :: _ => true
  end.

Fixpoint last_char (s : string) : option ascii :=
  match s with
  | "" => None
  | String c "" => Some c
  | String _ s' => last_char s'
  end.

(** [l[0]] on a list of strings. *)
Definition item0 (l : list string) : result string :=
  match l with
  | a :: _ => Ok a
  | [] => Raise IndexError
  end.

(** [v[0]]: the first element of a list, the first character of a string. *)
Definition index_first (v : value) : result value :=
  match v with
  | VStr (String c _) => Ok (VStr (chr c))
  | VList (a :: _) => Ok (VStr a)
  | _ => Raise IndexError
  end.

(** [v[-1]]: the last element of a list, the last character of a string. *)
Definition index_last (v : value) : result value :=
  match v with
  | VStr s =>
      match last_char s with
      | Some c => Ok (VStr (chr c))
      | None => Raise IndexError
      end
  | VList l =>
      match last l with
      | Some a => Ok (VStr a)
      | None => Raise IndexError
      end
  end.

(** [re.search(pattern, v)]: a [TypeError] unless [v] is a string. *)
Definition re_search_value (m : string -> option string) (v : value)
  : result (option string) :=
  match v with
  | VStr s => Ok (re_search m s)
  | VList _ => Raise TypeError
  end.

(** Two lower-case hexadecimal digits. *)
Definition hexdigit (n : nat) : ascii :=
  match String.get n "0123456789abcdef" with
  | Some c => c
  | None => "0"%char
  end.

Definition hex2 (n : nat) : string :=
  String (hexdigit (n / 16)) (chr (hexdigit (n mod 16))).

(** [repr] of one character of a string shown between [quote]s. *)
Definition repr_char (quote c : ascii) : string :=
  let n := nat_of_ascii c in
  if Ascii.eqb c quote || Ascii.eqb c "\"%char then String "\"%char (chr c)
  else if (n =? 9)%nat then "\t"
  else if (n =? 10)%nat then "\n"
  else if (n =? 13)%nat then "\r"
  else if ((n <? 32) || (n =? 127))%nat then "\x" +:+ hex2 n
  else if (n <? 127)%nat then chr c
  else if ((n <=? 160) || (n =? 173))%nat then "\x" +:+ hex2 n
  else chr c.

Fixpoint repr_chars (quote : ascii) (s : string) : string :=
  match s with
  | "" => ""
  | String c s' => repr_char quote c +:+ repr_chars quote s'
  end.

(** [repr(s)]: single quotes, unless [s] holds one and no double quote. *)
Definition repr_str (s : string) : string :=
  let quote :=
    if contains "'" s && negb (contains (chr dq) s) then dq else "'"%char in
  String quote (repr_chars quote s +:+ chr quote).

(** [str(v)], which [str.format] substitutes for a field. *)
Definition str (v : value) : string :=
  match v with
  | VStr s => s
  | VList l => "[" +:+ String.concat ", " (map repr_str l) +:+ "]"
  end.

(** [template.format(pmid=v)] for a template with the one field [{pmid}]. *)
Definition format (template : string * string) (v : value) : string :=
  fst template +:+ str v +:+ snd template.

End Py.
Import Py.

(* ------------------------------------------------------------------ *)
(** ** PubMedScraper.process_record *)

(** The [for aid in aids] loop: the first entry holding [[doi]] sets the DOI
    and leaves the loop. *)
Fixpoint aid_loop (aids : list string) (doi : string) : result string :=
  match aids with
  | [] => Ok doi
  | aid :: rest =>
      if contains "[doi]" aid
      then item0 (split " [doi]" aid)
      else aid_loop rest doi
  end.

(** The [LID] block: the first match of [(10\.\S+)] in the link
    identifier, when there is one. *)
Definition doi_from_lid (rec : Rec) : result string :=
  let lid := get rec "LID" (VStr "") in
  if truthy lid
  then doi_match ← re_search_value match_doi lid;
       Ok (match doi_match with Some d => d | None => "" end)
  else Ok "".

(** The [AID] block, entered with the DOI found so far. *)
Definition doi_from_aid (rec : Rec) (doi : string) : result string :=
  aids ← getitem rec "AID";
  match aids with
  | VList l => aid_loop l doi
  | VStr s => if contains "[doi]" s then item0 (split " [doi]" s) else Ok doi
  end.

(** The DOI, from [LID] and then from [AID]. *)
Definition resolve_doi (rec : Rec) : result string :=
  doi ← doi_from_lid rec;
  if negb (truthy_str doi) && has rec "AID"
  then doi_from_aid rec doi
  else Ok doi.

(** The body of the [try] block of [process_record]. *)
Definition process_record_body (rec : Rec) : result Row :=
  let journal_title := get rec "JT" (VStr "") in
  let journal_abstract := get rec "TA" (VStr "") in
  let title := get rec "TI" (VStr "") in
  let dp := get rec "DP" (VStr "") in
  year_match ← re_search_value match_d4 dp;
  let year := match year_match with Some y => y | None => "" end in
  let issue := get rec "IP" (VStr "") in
  let volume := get rec "VI" (VStr "") in
  let pages := get rec "PG" (VStr "") in
  let authors := get rec "AU" (VList []) in
  first_author ← (if truthy authors then index_first authors else Ok (VStr ""));
  last_author ← (if truthy authors then index_last authors else Ok (VStr ""));
  let affiliations := get rec "AD" (VStr "") in
  first_author_affiliation ←
    (if truthy affiliations then index_first affiliations else Ok (VStr ""));
  last_author_affiliation ←
    (if truthy affiliations then index_last affiliations else Ok (VStr ""));
  doi ← resolve_doi rec;
  let pmid := get rec "PMID" (VStr "") in
  let link := if truthy pmid then format config.LINK_TEMPLATE pmid else "" in
  Ok [ ("Journal_TTL", journal_title);
       ("Journal_ABBRV", journal_abstract);
       ("Title", title);
       ("Year", VStr year);
       ("Pages", pages);
       ("Issue", issue);
       ("Volume", volume);
       ("First Author", first_author);
       ("First Author Affiliation", first_author_affiliation);
       ("Last Author", last_author);
       ("Last Author Affiliation", last_author_affiliation);
       ("DOI", VStr doi);
       ("Link", VStr link);
       ("Authors", authors) ].

(** [process_record]: the row, or the empty dict when the body raised. *)
Definition process_record (rec : Rec) : Row :=
  match process_record_body rec with
  | Ok row => row
  | Raise _ => []
  end.

(** [row[key]] for a key of the row. *)
Fixpoint field (key : string) (row : Row) : option value :=
  match row with
  | [] => None
  | (k, v) :: row' => if String.eqb k key then Some v else field key row'
  end.

(* ------------------------------------------------------------------ *)
(** ** The run loop *)

(** The inner loop of [run]: a processed record is appended to [all_data]
    when it is a non-empty dict. *)
Definition append_processed (all_data : list Row) (rec : Rec) : list Row :=
  let processed := process_record rec in
  if truthy_dict processed then all_data ++ [processed] else all_data.

Definition process_records (all_data : list Row) (records : list Rec) : list Row :=
  fold_left append_processed records all_data.

(** A call to one of the two services. *)
Inductive call : Type :=
  | Search (term : string) (retmax : nat)
  | Fetch (ids : list string).

Section Services.

(** The Search Service: [Entrez.esearch] followed by [Entrez.read], which
    yields the parsed reply or raises. *)
Variable Entrez_search : string -> nat -> result (gmap string (list string)).

(** The Fetch Service: [Entrez.efetch] followed by [Medline.parse], which
    yields the records or raises. *)
Variable Entrez_fetch : list string -> result (list Rec).

(** [config.MAX_QUERIES], the cap on the results of one search; config.py
    does not define it, so it is left open here. *)
Variable MAX_QUERIES : nat.

(** The body of the [try] block of [fetch_records], with the calls made. *)
Definition fetch_records_body (query : string) (retmax : nat)
  : list call * result (list Rec) :=
  match Entrez_search query retmax with
  | Raise e => ([Search query retmax], Raise e)
  | Ok search_results =>
      let pmid_list :=
        match search_results !! "IdList" with
        | Some ids => ids
        | None => []
        end in
      match pmid_list with
      | [] => ([Search query retmax], Ok [])
      | _ :: _ =>
          match Entrez_fetch pmid_list with
          | Raise e => ([Search query retmax; Fetch pmid_list], Raise e)
          | Ok records => ([Search query retmax; Fetch pmid_list], Ok records)
          end
      end
  end.

(** [fetch_records]: the records, or the empty list when the body raised. *)
Definition fetch_records (query : string) (retmax : nat) : list call * list Rec :=
  let (calls, r) := fetch_records_body query retmax in
  (calls,
   match r with
   | Ok records => records
   | Raise _ => []
   end).

(** One turn of the loop of [run] over the journals; the state is the
    calls made so far and [all_data]. *)
Definition run_journal (st : list call * list Row) (journal : string)
  : list call * list Row :=
  let query := construct_query journal in
  let (calls, records) := fetch_records query MAX_QUERIES in
  (fst st ++ calls,
   match records with
   | [] => snd st
   | _ :: _ => process_records (snd st) records
   end).

(** [run]: the calls made and the rows handed to [update_excel]. *)
Definition run_from (journals : list string) (st : list call * list Row)
  : list call * list Row :=
  fold_left run_journal journals st.

Definition run : list call * list Row := run_from config.JOURNALS ([], []).

End Services.

(* ------------------------------------------------------------------ *)
(** ** Notions the properties are stated with *)

(** The journal-match clause of [construct_query]: the journal query
    between parentheses. *)
Definition journal_clause (journal : string) : string :=
  "(" +:+ (quoted journal +:+ "[Journal]") +:+ ")".

(** What closes a journal-match clause: the quote after the name, the
    field tag and the parenthesis. *)
Definition clause_end : string := String dq "[Journal])".

(** [s.find(p)]: the first position of [s] at which [p] starts. *)
Fixpoint find (p s : string) : option nat :=
  if startswith p s then Some 0
  else match s with
       | "" => None
       | String _ s' => option_map S (find p s')
       end.

(** [p] matches at the start of [s] as far as [s] goes. *)
Fixpoint startswith_trunc (p s : string) : bool :=
  match p, s with
  | "", _ => true
  | _, "" => true
  | String a p', String b s' => Ascii.eqb a b && startswith_trunc p' s'
  end.

(** No occurrence of [p] in a text that extends [x] can start within [x]. *)
Fixpoint no_start_within (p x : string) : bool :=
  match x with
  | "" => true
  | String _ x' => negb (startswith_trunc p x) && no_start_within p x'
  end.

(** The fields [process_record] reads. *)
Definition record_tags : list string :=
  ["JT"; "TA"; "TI"; "DP"; "IP"; "VI"; "PG"; "AU"; "AD"; "LID"; "AID"; "PMID"].

(** The row of defaults: every column the empty string, the author list
    the empty list. *)
Definition default_row : Row :=
  map (fun h => (h, if String.eqb h "Authors" then VList [] else VStr ""))
      config.OUTPUT_HEADERS.

(** The row of a record whose normalisation completes. *)
Definition completed (rec : Rec) : option Row :=
  match process_record_body rec with
  | Ok row => Some row
  | Raise _ => None
  end.

(** [y] is four digits standing in [dp] right after [pre]. *)
Definition four_digits_at (dp pre y : string) : Prop :=
  exists post,
    dp = pre +:+ y +:+ post /\ String.length y = 4 /\ forallb is_digit y = true.

(** The year of a publication date: the leftmost four digits in a row,
    the empty string when there are none. *)
Inductive year_of (dp : string) : string -> Prop :=
  | year_first pre y :
      four_digits_at dp pre y ->
      (forall pre' y', four_digits_at dp pre' y' ->
                       String.length pre <= String.length pre') ->
      year_of dp y
  | year_none :
      (forall pre y, ~ four_digits_at dp pre y) ->
      year_of dp "".

(** Follows the words of the specification: the first run of digits that is
    exactly four long, a longer run yielding nothing; [run] is the run of
    digits read so far. *)
Fixpoint exact_four_run (s run : string) : string :=
  match s with
  | "" => if (String.length run =? 4)%nat then run else ""
  | String c s' =>
      if is_digit c then exact_four_run s' (run +:+ chr c)
      else if (String.length run =? 4)%nat then run
      else exact_four_run s' ""
  end.


(** [d] is the text [10.] and the run of non-space characters after it, as
    long as it can be and not empty, standing in [lid] right after [pre]. *)
Definition doi_match_at (lid pre d : string) : Prop :=
  exists run post,
    lid = pre +:+ "10." +:+ run +:+ post /\ d = "10." +:+ run /\
    run <> "" /\ forallb (fun c => negb (is_space c)) run = true /\
    match post with
    | "" => True
    | String c _ => is_space c = true
    end.

(** The leftmost such text, and there being none. *)
Definition first_doi_match (lid d : string) : Prop :=
  exists pre,
    doi_match_at lid pre d /\
    forall pre' d', doi_match_at lid pre' d' -> String.length pre <= String.length pre'.

Definition no_doi_match (lid : string) : Prop :=
  forall pre d, ~ doi_match_at lid pre d.

(** [r] is the text of [s] before the first [sep], all of [s] when [sep]
    does not occur in it. *)
Definition before_first (sep s r : string) : Prop :=
  (exists post,
      s = r +:+ sep +:+ post /\
      forall r' post', s = r' +:+ sep +:+ post' -> String.length r <= String.length r') \/
  (contains sep s = false /\ r = s).

(** An entry without the marker [[doi]]. *)
Definition unmarked (aid : string) : Prop := contains "[doi]" aid = false.

(** Stage (a): what the link identifier gives. *)
Inductive lid_stage (rec : Rec) : string -> Prop :=
  | lid_match lid d :
      rec !! "LID" = Some (VStr lid) -> first_doi_match lid d -> lid_stage rec d
  | lid_no_match lid :
      rec !! "LID" = Some (VStr lid) -> no_doi_match lid -> lid_stage rec ""
  | lid_empty_list :
      rec !! "LID" = Some (VList []) -> lid_stage rec ""
  | lid_absent :
      rec !! "LID" = None -> lid_stage rec "".

(** Stage (b): what the article identifiers give. *)
Inductive aid_stage (rec : Rec) : string -> Prop :=
  | aid_scalar s d :
      rec !! "AID" = Some (VStr s) -> contains "[doi]" s = true ->
      before_first " [doi]" s d -> aid_stage rec d
  | aid_scalar_unmarked s :
      rec !! "AID" = Some (VStr s) -> unmarked s -> aid_stage rec ""
  | aid_list l1 e l2 d :
      rec !! "AID" = Some (VList (l1 ++ e :: l2)) -> Forall unmarked l1 ->
      contains "[doi]" e = true -> before_first " [doi]" e d -> aid_stage rec d
  | aid_list_unmarked l :
      rec !! "AID" = Some (VList l) -> Forall unmarked l -> aid_stage rec ""
  | aid_absent :
      rec !! "AID" = None -> aid_stage rec "".

(** The two stages in their order: (b) only when (a) gave the empty
    string. *)
Inductive doi_of (rec : Rec) : string -> Prop :=
  | doi_stage_a d : lid_stage rec d -> d <> "" -> doi_of rec d
  | doi_stage_b d : lid_stage rec "" -> aid_stage rec d -> doi_of rec d.

(** [e] is the entry of the article identifiers that sets the DOI: the
    field itself when it is one string with the marker, else the first
    entry of the list with the marker. *)
Definition first_marked_entry (rec : Rec) (e : string) : Prop :=
  contains "[doi]" e = true /\
  (rec !! "AID" = Some (VStr e) \/
   exists l1 l2, rec !! "AID" = Some (VList (l1 ++ e :: l2)) /\ Forall unmarked l1).

(** Follows the words of the specification: the text of an entry before
    the marker. *)
Fixpoint text_before (marker s : string) : string :=
  if startswith marker s then ""
  else match s with
       | "" => ""
       | String c s' => String c (text_before marker s')
       end.


(** Stand-ins for the two services, for the examples: a search that
    raises, one that finds nothing, one that finds a record, and a fetch
    that raises. *)
Definition search_raising (term : string) (retmax : nat)
  : result (gmap string (list string)) :=
  Raise (ServiceError "HTTP Error 429").

Definition search_nothing (term : string) (retmax : nat)
  : result (gmap string (list string)) :=
  Ok {[ "IdList" := [] ]}.

Definition search_one (term : string) (retmax : nat)
  : result (gmap string (list string)) :=
  Ok {[ "IdList" := ["33301246"] ]}.

Definition fetch_raising (ids : list string) : result (list Rec) :=
  Raise (ServiceError "incomplete read").

Definition fetch_one (ids : list string) : result (list Rec) :=
  Ok [ {[ "PMID" := VStr "33301246"; "DP" := VStr "2020 Dec 31" ]} ].


(** The two field shapes on which [process_record] raises: a
    publication date that is a list, a link identifier that is a non-empty
    list. *)
Definition bad_shape (rec : Rec) : bool :=
  match rec !! "DP" with
  | Some (VList _) => true
  | _ => false
  end ||
  match rec !! "LID" with
  | Some (VList (_ :: _)) => true
  | _ => false
  end.

(** The number of characters [c] in [s]. *)
Fixpoint count_char (c : ascii) (s : string) : nat :=
  match s with
  | "" => 0
  | String a s' => (if Ascii.eqb a c then 1 else 0) + count_char c s'
  end.

(** The position of the parenthesis that closes the group open at depth
    [d]: [i] is the position of the first character of [s]. *)
Fixpoint group_end (s : string) (d i : nat) : option nat :=
  match s with
  | "" => None
  | String c s' =>
      if Ascii.eqb c "(" then group_end s' (S d) (S i)
      else if Ascii.eqb c ")" then
        match d with
        | 0 => None
        | 1 => Some i
        | S d' => group_end s' d' (S i)
        end
      else group_end s' d (S i)
  end.

(** The calls that are searches. *)
Definition is_search (c : call) : bool :=
  match c with
  | Search _ _ => true
  | Fetch _ => false
  end.

(* ------------------------------------------------------------------ *)
(** ** Facts about the string operations *)

Section StringFacts.

Implicit Types (p s t u : string) (a b c : ascii).

Lemma sapp_cons a s t : String a s +:+ t = String a (s +:+ t).
Proof. reflexivity. Qed.

Lemma sapp_nil_r s : s +:+ "" = s.
Proof. induction s as [|a s IH]; [reflexivity|]. now rewrite sapp_cons, IH. Qed.

Lemma sapp_assoc s t u : (s +:+ t) +:+ u = s +:+ (t +:+ u).
Proof. induction s as [|a s IH]; [reflexivity|]. now rewrite !sapp_cons, IH. Qed.

Lemma slength_app s t : String.length (s +:+ t) = String.length s + String.length t.
Proof. induction s as [|a s IH]; [reflexivity|]. rewrite sapp_cons. simpl. now rewrite IH. Qed.

Lemma startswith_app p s : startswith p (p +:+ s) = true.
Proof.
  induction p as [|a p IH]; [reflexivity|].
  rewrite sapp_cons. simpl. now rewrite Ascii.eqb_refl, IH.
Qed.

Lemma startswith_inv p s : startswith p s = true -> exists r, s = p +:+ r.
Proof.
  revert s. induction p as [|a p IH]; intros s H.
  - now exists s.
  - destruct s as [|b s]; [discriminate|]. simpl in H.
    apply andb_prop in H as [Hab Hp]. apply Ascii.eqb_eq in Hab as ->.
    destruct (IH _ Hp) as [r ->]. now exists r.
Qed.

Lemma startswith_nil_r p : startswith p "" = true -> p = "".
Proof. destruct p; [reflexivity|discriminate]. Qed.

Lemma contains_intro p s t : contains p (s +:+ p +:+ t) = true.
Proof.
  induction s as [|a s IH].
  - change ("" +:+ p +:+ t) with (p +:+ t).
    destruct (p +:+ t) eqn:E; simpl; rewrite <- E, startswith_app; reflexivity.
  - rewrite sapp_cons. simpl. rewrite IH. apply orb_true_r.
Qed.

Lemma contains_inv p s : contains p s = true -> exists t u, s = t +:+ p +:+ u.
Proof.
  induction s as [|a s IH]; simpl; intros H.
  - rewrite orb_false_r in H. apply startswith_nil_r in H as ->. now exists "", "".
  - apply orb_prop in H as [H|H].
    + apply startswith_inv in H as [r Hr]. now exists "", r.
    + destruct (IH H) as (t & u & ->). now exists (String a t), u.
Qed.

Lemma lower_app s t : lower (s +:+ t) = lower s +:+ lower t.
Proof. induction s as [|a s IH]; [reflexivity|]. rewrite sapp_cons. simpl. now rewrite IH. Qed.

Lemma lower_quoted s : lower (quoted s) = quoted (lower s).
Proof. unfold quoted. simpl. now rewrite lower_app. Qed.

Lemma contains_lower p s : contains p s = true -> contains (lower p) (lower s) = true.
Proof.
  intros H. apply contains_inv in H as (t & u & ->).
  rewrite !lower_app. apply contains_intro.
Qed.

Lemma sdrop_nil n : sdrop n "" = "".
Proof. now destruct n. Qed.

Lemma sdrop_app_plus s t k : sdrop (String.length s + k) (s +:+ t) = sdrop k t.
Proof. induction s as [|a s IH]; [reflexivity|]. rewrite sapp_cons. simpl. exact IH. Qed.

Lemma sdrop_sdrop i j s : sdrop i (sdrop j s) = sdrop (j + i) s.
Proof.
  revert s. induction j as [|j IH]; intros s; [reflexivity|].
  destruct s as [|a s]; simpl; [apply sdrop_nil|apply IH].
Qed.

Lemma startswith_app_inv p t s :
  startswith (p +:+ t) s = true -> startswith t (sdrop (String.length p) s) = true.
Proof.
  revert s. induction p as [|a p IH]; intros s H; [exact H|].
  destruct s as [|b s]; [discriminate|]. rewrite sapp_cons in H. simpl in H.
  apply andb_prop in H as [_ H]. simpl. now apply IH.
Qed.

Lemma startswith_cons_ne a p b s : a <> b -> startswith (String a p) (String b s) = false.
Proof. intros H. simpl. apply Ascii.eqb_neq in H. now rewrite H. Qed.

End StringFacts.

(* ------------------------------------------------------------------ *)
(** ** The query builder *)

(** The text of [construct_query], clause by clause. *)
Lemma construct_query_unfold (N : string) :
  construct_query N =
  ("(" +:+ config.RCT_QUERY +:+ " AND " +:+ config.CRITICAL_QUERY +:+ " AND ") +:+
  journal_clause N +:+
  (" AND " +:+ config.DATE_QUERY +:+ " " +:+
   (if String.eqb (lower N) "annals of intensive care"
    then ")" else "AND " +:+ config.HUMANS_FILTER +:+ ")") +:+
   " NOT " +:+ config.EXCLUSION_QUERY).
Proof.
  unfold construct_query, journal_clause. cbv zeta.
  now rewrite ?sapp_assoc, ?sapp_cons.
Qed.

Lemma sapp_nil_l (s : string) : "" +:+ s = s.
Proof. reflexivity. Qed.

(** Right-nest every concatenation. *)
Ltac str_norm := repeat (rewrite sapp_assoc || rewrite sapp_cons || rewrite sapp_nil_l).

(** C1: for every journal name the exclusion follows the closing
    parenthesis of the main group, outside it, but it is negated twice: the
    template writes [NOT] and [EXCLUSION_QUERY] starts with a [NOT] of its
    own, so the query ends [) NOT NOT (... OR ... OR ...)]. *)
Theorem construct_query_exclusion_negated_twice (N : string) :
  exists clauses,
    construct_query N =
    ("(" +:+ clauses +:+ ")") +:+
    " NOT NOT (" +:+ quoted "systematic review" +:+ "[Publication Type] OR " +:+
    quoted "Meta-Analysis" +:+ "[Publication Type] OR " +:+
    quoted "Review" +:+ "[Publication Type])".
Proof.
  exists (config.RCT_QUERY +:+ " AND " +:+ config.CRITICAL_QUERY +:+
          " AND (" +:+ quoted N +:+ "[Journal]) AND " +:+ config.DATE_QUERY +:+
          (if String.eqb (lower N) "annals of intensive care"
           then " " else " AND " +:+ config.HUMANS_FILTER)).
  rewrite construct_query_unfold. unfold config.EXCLUSION_QUERY, journal_clause.
  destruct (String.eqb (lower N) "annals of intensive care"); now str_norm.
Qed.

(** The failing input of C1, evaluated. *)
Example construct_query_Lancet_tail :
  sdrop 921 (construct_query "Lancet") =
  ") NOT NOT (" +:+ quoted "systematic review" +:+ "[Publication Type] OR " +:+
  quoted "Meta-Analysis" +:+ "[Publication Type] OR " +:+
  quoted "Review" +:+ "[Publication Type])".
Proof. vm_compute. reflexivity. Qed.

(** C4: the query lacks the human-subjects clause exactly when the journal
    name, lower-cased, is "annals of intensive care"; the main group is then
    closed right after the date clause, and for every other name the clause
    is ANDed in before the closing parenthesis. *)
Theorem humans_clause_omitted_iff_annals (N : string) :
  (contains config.HUMANS_FILTER (construct_query N) = false <->
   lower N = "annals of intensive care") /\
  exists clauses,
    construct_query N =
    "(" +:+ clauses +:+ config.DATE_QUERY +:+ " " +:+
    (if String.eqb (lower N) "annals of intensive care"
     then ")"
     else "AND " +:+ config.HUMANS_FILTER +:+ ")") +:+
    " NOT " +:+ config.EXCLUSION_QUERY.
Proof.
  split.
  - split.
    + intros H. destruct (String.eqb_spec (lower N) "annals of intensive care") as [E|E];
        [exact E|exfalso].
      apply String.eqb_neq in E.
      assert (construct_query N =
              ("(" +:+ config.RCT_QUERY +:+ " AND " +:+ config.CRITICAL_QUERY +:+
               " AND (" +:+ quoted N +:+ "[Journal]) AND " +:+ config.DATE_QUERY +:+
               " AND ") +:+ config.HUMANS_FILTER +:+
              (") NOT " +:+ config.EXCLUSION_QUERY)) as Hq.
      { rewrite construct_query_unfold, E. unfold journal_clause. now str_norm. }
      now rewrite Hq, contains_intro in H.
    + intros E.
      destruct (contains config.HUMANS_FILTER (construct_query N)) eqn:H; [exfalso|reflexivity].
      apply contains_lower in H. rewrite construct_query_unfold in H.
      rewrite E, String.eqb_refl in H.
      unfold journal_clause in H. rewrite !lower_app, lower_quoted, E in H.
      vm_compute in H. discriminate.
  - exists (config.RCT_QUERY +:+ " AND " +:+ config.CRITICAL_QUERY +:+
            " AND (" +:+ quoted N +:+ "[Journal]) AND ").
    rewrite construct_query_unfold. unfold journal_clause. now str_norm.
Qed.

(** The configured spelling of the exempt journal is a case variant. *)
Example annals_as_configured :
  In "Annals of Intensive care" config.JOURNALS /\
  contains config.HUMANS_FILTER (construct_query "Annals of Intensive care") = false /\
  contains config.HUMANS_FILTER (construct_query "Lancet") = true.
Proof. vm_compute. tauto. Qed.

(** *** Occurrences of a text in another *)

Section Occurrences.

Implicit Types (p s t u x y : string) (i j k : nat).

Lemma find_unfold p s :
  find p s =
  if startswith p s then Some 0
  else match s with
       | "" => None
       | String _ s' => option_map S (find p s')
       end.
Proof. destruct s; reflexivity. Qed.

Lemma startswith_trunc_app p x y :
  startswith p (x +:+ y) = true -> startswith_trunc p x = true.
Proof.
  revert x. induction p as [|a p IH]; intros x H; [reflexivity|].
  destruct x as [|b x]; [reflexivity|].
  rewrite sapp_cons in H. simpl in H |- *.
  apply andb_prop in H as [-> H]. simpl. now apply IH.
Qed.

Lemma find_app_skip p x y :
  no_start_within p x = true ->
  find p (x +:+ y) = option_map (Nat.add (String.length x)) (find p y).
Proof.
  induction x as [|a x IH]; intros H.
  - rewrite sapp_nil_l. now destruct (find p y).
  - simpl in H. apply andb_prop in H as [H1 H2]. apply negb_true_iff in H1.
    rewrite find_unfold.
    destruct (startswith p (String a x +:+ y)) eqn:E.
    + apply startswith_trunc_app in E. congruence.
    + rewrite sapp_cons, (IH H2). now destruct (find p y).
Qed.

Lemma startswith_app_short p u v :
  startswith p (u +:+ v) = true -> String.length p <= String.length u ->
  startswith p u = true.
Proof.
  revert u. induction p as [|a p IH]; intros u H L; [reflexivity|].
  destruct u as [|b u]; [simpl in L; lia|].
  rewrite sapp_cons in H. simpl in H, L |- *.
  apply andb_prop in H as [-> H]. simpl. apply IH; [exact H|lia].
Qed.

Lemma startswith_length p s : startswith p s = true -> String.length p <= String.length s.
Proof.
  intros H. apply startswith_inv in H as [r ->]. rewrite slength_app. lia.
Qed.

Lemma find_Some_length p u k : find p u = Some k -> k + String.length p <= String.length u.
Proof.
  revert k. induction u as [|a u IH]; intros k; rewrite find_unfold.
  - destruct (startswith p "") eqn:E; [|discriminate].
    intros [= <-]. apply startswith_length in E. lia.
  - destruct (startswith p (String a u)) eqn:E.
    + intros [= <-]. apply startswith_length in E. lia.
    + destruct (find p u) as [k'|]; [|discriminate].
      intros [= <-]. specialize (IH k' eq_refl). simpl. lia.
Qed.

Lemma find_app_left p u v k : find p u = Some k -> find p (u +:+ v) = Some k.
Proof.
  revert k. induction u as [|a u IH]; intros k; rewrite find_unfold.
  - destruct (startswith p "") eqn:E; [|discriminate].
    intros [= <-]. apply startswith_nil_r in E as ->. rewrite find_unfold. now destruct v.
  - destruct (startswith p (String a u)) eqn:E.
    + intros [= <-]. apply startswith_inv in E as [r E].
      rewrite E, sapp_assoc, find_unfold. now rewrite startswith_app.
    + destruct (find p u) as [k'|] eqn:F; [|discriminate].
      intros [= <-]. rewrite sapp_cons, find_unfold.
      destruct (startswith p (String a (u +:+ v))) eqn:E'.
      * apply find_Some_length in F.
        rewrite <- sapp_cons in E'. apply startswith_app_short in E'; [congruence|simpl; lia].
      * now rewrite (IH k' eq_refl).
Qed.

Lemma find_sdrop p s i k : find p s = Some k -> i <= k -> find p (sdrop i s) = Some (k - i).
Proof.
  revert s k. induction i as [|i IH]; intros s k F L.
  - simpl. now rewrite Nat.sub_0_r.
  - destruct k as [|k]; [lia|]. rewrite find_unfold in F.
    destruct (startswith p s); [discriminate|].
    destruct s as [|a s]; [discriminate|].
    destruct (find p s) as [k'|] eqn:F'; [|discriminate].
    injection F as <-. simpl. apply IH; [exact F'|lia].
Qed.

Lemma find_le p s j :
  startswith p (sdrop j s) = true -> exists k, find p s = Some k /\ k <= j.
Proof.
  revert s. induction j as [|j IH]; intros s H.
  - simpl in H. exists 0. rewrite find_unfold, H. split; [reflexivity|lia].
  - rewrite find_unfold. destruct (startswith p s) eqn:E.
    + exists 0. split; [reflexivity|lia].
    + destruct s as [|a s]; [simpl in H; congruence|].
      simpl in H. destruct (IH _ H) as (k & -> & L).
      exists (S k). split; [reflexivity|lia].
Qed.

Lemma count_sub_zero p s :
  (forall i, startswith p (sdrop i s) = false) -> count_sub p s = 0.
Proof.
  induction s as [|a s IH]; intros H; pose proof (H 0) as H0; simpl in H0.
  - simpl. now rewrite H0.
  - simpl. rewrite H0. simpl. apply IH. intros i. exact (H (S i)).
Qed.

Lemma count_sub_zero_inv p s i : count_sub p s = 0 -> startswith p (sdrop i s) = false.
Proof.
  revert s. induction i as [|i IH]; intros s H.
  - simpl. destruct s; simpl in H; destruct (startswith p _); (reflexivity || discriminate).
  - destruct s as [|a s].
    + simpl in H |- *. destruct (startswith p ""); (reflexivity || discriminate).
    + simpl. apply IH. simpl in H. lia.
Qed.

Lemma count_sub_one p s k :
  startswith p (sdrop k s) = true ->
  (forall i, startswith p (sdrop i s) = true -> i = k) ->
  count_sub p s = 1.
Proof.
  revert k. induction s as [|a s IH]; intros k Hk Hu.
  - rewrite sdrop_nil in Hk. simpl. now rewrite Hk.
  - destruct k as [|k].
    + simpl in Hk. simpl. rewrite Hk. f_equal. apply count_sub_zero.
      intros i. destruct (startswith p (sdrop i s)) eqn:E; [|reflexivity].
      specialize (Hu (S i) E). discriminate.
    + simpl. destruct (startswith p (String a s)) eqn:E.
      * specialize (Hu 0 E). discriminate.
      * simpl. apply (IH k); [exact Hk|].
        intros i Hi. specialize (Hu (S i) Hi). lia.
Qed.

End Occurrences.

(** *** The journal-match clause occurs once *)

Lemma journal_clause_shape (N : string) :
  journal_clause N = String "(" (String dq N) +:+ clause_end.
Proof. unfold journal_clause, quoted, clause_end, chr. now str_norm. Qed.

(** In a text [A (clause) B] whose fixed parts leave no room for another
    clause end, the clause of [N] starts at one position only, whatever
    [N] holds. *)
Lemma clause_once (A B N : string) :
  no_start_within clause_end (A +:+ "(") = true ->
  count_sub clause_end (sdrop 1 (clause_end +:+ B)) = 0 ->
  count_sub (journal_clause N) (A +:+ journal_clause N +:+ B) = 1.
Proof.
  intros HA HB.
  assert (exists g, forall R, find clause_end (String dq N +:+ clause_end +:+ R) = Some g)
    as [g Hg].
  { destruct (find_le clause_end (String dq N +:+ clause_end) (String.length (String dq N)))
      as (g & Fg & _).
    - replace (String.length (String dq N)) with (String.length (String dq N) + 0) by lia.
      now rewrite sdrop_app_plus.
    - exists g. intros R. rewrite <- sapp_assoc. now apply find_app_left. }
  assert (find clause_end (A +:+ journal_clause N +:+ B)
          = Some (String.length (A +:+ "(") + g)) as HT.
  { rewrite journal_clause_shape.
    replace (A +:+ (String "(" (String dq N) +:+ clause_end) +:+ B)
      with ((A +:+ "(") +:+ String dq N +:+ clause_end +:+ B) by now str_norm.
    now rewrite (find_app_skip _ _ _ HA), Hg. }
  apply (count_sub_one _ _ (String.length A)).
  - replace (String.length A) with (String.length A + 0) by lia.
    rewrite sdrop_app_plus. apply startswith_app.
  - intros i Hi. destruct (le_lt_dec i (String.length A)) as [L|L].
    + pose proof (find_sdrop _ _ i _ HT) as Hd.
      rewrite slength_app in Hd. simpl in Hd. specialize (Hd ltac:(lia)).
      apply startswith_inv in Hi as [R HR]. rewrite HR, journal_clause_shape in Hd.
      rewrite sapp_assoc, !sapp_cons, find_unfold in Hd.
      unfold clause_end at 1 in Hd.
      rewrite startswith_cons_ne in Hd by discriminate.
      rewrite <- sapp_cons, Hg in Hd. simpl in Hd. injection Hd as Hd. lia.
    + exfalso.
      replace i with (String.length A + S (i - String.length A - 1)) in Hi by lia.
      rewrite sdrop_app_plus, journal_clause_shape in Hi.
      apply startswith_app_inv in Hi. rewrite sdrop_sdrop in Hi.
      rewrite sapp_assoc, !sapp_cons in Hi. cbn [sdrop Nat.add] in Hi.
      rewrite <- sapp_cons in Hi.
      replace (i - String.length A - 1 + String.length (String "(" (String dq N)))
        with (String.length (String dq N) + S (i - String.length A - 1)) in Hi
        by (simpl; lia).
      rewrite (sdrop_app_plus (String dq N)) in Hi.
      pose proof (count_sub_zero_inv _ _ (i - String.length A - 1) HB) as Hz.
      rewrite sdrop_sdrop in Hz. simpl in Hz. simpl in Hi. congruence.
Qed.

(** C9: the query is a function of the journal name alone, and the
    journal-match clause that holds the name verbatim, between quotes and
    parentheses with the [Journal] tag, occurs in it exactly once. *)
Theorem construct_query_one_journal_clause (N N' : string) (same : N = N') :
  construct_query N = construct_query N' /\
  count_sub (journal_clause N) (construct_query N') = 1.
Proof.
  subst N'. split; [reflexivity|].
  rewrite construct_query_unfold.
  destruct (String.eqb (lower N) "annals of intensive care");
    apply clause_once; vm_compute; reflexivity.
Qed.

Lemma construct_query_one_journal_clause_witness :
  construct_query "Lancet" = construct_query "Lancet" /\
  count_sub (journal_clause "Lancet") (construct_query "Lancet") = 1.
Proof. apply (construct_query_one_journal_clause "Lancet" "Lancet"). reflexivity. Defined.

(* ------------------------------------------------------------------ *)
(** ** The record normaliser *)

(** *** [re.search] finds the leftmost match *)

Section Search.

Variable m : string -> option string.

Lemma re_search_Some (s r : string) :
  re_search m s = Some r ->
  exists pre rest,
    s = pre +:+ rest /\ m rest = Some r /\
    forall pre' rest', s = pre' +:+ rest' ->
                       String.length pre' < String.length pre -> m rest' = None.
Proof.
  induction s as [|a s IH]; simpl.
  - destruct (m "") as [r'|] eqn:E; [|discriminate].
    intros [= <-]. exists "", "". repeat split; [exact E|]. simpl. lia.
  - destruct (m (String a s)) as [r'|] eqn:E.
    + intros [= <-]. exists "", (String a s). repeat split; [exact E|]. simpl. lia.
    + intros H. destruct (IH H) as (pre & rest & -> & Hm & Hmin).
      exists (String a pre), rest. repeat split; [exact Hm|].
      intros [|b pre'] rest' Heq L.
      * rewrite sapp_nil_l in Heq. now subst rest'.
      * rewrite !sapp_cons in Heq. injection Heq as _ Heq.
        apply (Hmin pre' rest' Heq). simpl in L. lia.
Qed.

Lemma re_search_None (s : string) :
  re_search m s = None -> forall pre rest, s = pre +:+ rest -> m rest = None.
Proof.
  induction s as [|a s IH]; simpl.
  - destruct (m "") eqn:E; [discriminate|].
    intros _ [|b pre] rest Heq; [|rewrite sapp_cons in Heq; discriminate].
    rewrite sapp_nil_l in Heq. now subst rest.
  - destruct (m (String a s)) eqn:E; [discriminate|].
    intros H [|b pre] rest Heq.
    + rewrite sapp_nil_l in Heq. now subst rest.
    + rewrite sapp_cons in Heq. injection Heq as _ Heq. now apply (IH H pre).
Qed.

End Search.

(** *** The year pattern *)

Lemma match_d4_Some (s y : string) :
  match_d4 s = Some y ->
  exists post, s = y +:+ post /\ String.length y = 4 /\ forallb is_digit y = true.
Proof.
  destruct s as [|a [|b [|c [|d post]]]]; try discriminate. simpl.
  destruct (is_digit a && is_digit b && is_digit c && is_digit d) eqn:E; [|discriminate].
  intros [= <-]. exists post. repeat split. simpl.
  rewrite andb_true_r. rewrite <- !andb_assoc in E. exact E.
Qed.

Lemma match_d4_complete (y post : string) :
  String.length y = 4 -> forallb is_digit y = true -> match_d4 (y +:+ post) = Some y.
Proof.
  destruct y as [|a [|b [|c [|d [|e y]]]]]; try discriminate. intros _ H.
  simpl in H. rewrite andb_true_r in H. rewrite !sapp_cons, sapp_nil_l. simpl.
  rewrite <- !andb_assoc. now rewrite H.
Qed.

Lemma re_search_year (dp : string) :
  year_of dp (match re_search match_d4 dp with Some y => y | None => "" end).
Proof.
  destruct (re_search match_d4 dp) as [y|] eqn:E.
  - apply re_search_Some in E as (pre & rest & -> & Hm & Hmin).
    apply match_d4_Some in Hm as (post & -> & L & D).
    apply (year_first _ pre).
    + now exists post.
    + intros pre' y' (post' & Heq & L' & D').
      destruct (le_lt_dec (String.length pre) (String.length pre')) as [|Hlt]; [assumption|].
      specialize (Hmin pre' _ Heq Hlt). rewrite match_d4_complete in Hmin by assumption.
      discriminate.
  - apply year_none. intros pre y (post & Heq & L & D).
    pose proof (re_search_None _ _ E pre _ Heq) as Hn.
    rewrite match_d4_complete in Hn by assumption. discriminate.
Qed.

(** *** The shape of a completed row *)

Lemma bind_Ok {A B : Type} (m : result A) (f : A -> result B) (b : B) :
  (m ≫= f) = Ok b -> exists a, m = Ok a /\ f a = Ok b.
Proof. destruct m as [a|e]; [|discriminate]. intros H. now exists a. Qed.

Lemma bind_Ok_l {A B : Type} (a : A) (f : A -> result B) : (Ok a ≫= f) = f a.
Proof. reflexivity. Qed.

Lemma process_record_body_inv (rec : Rec) (row : Row) :
  process_record_body rec = Ok row ->
  exists year_match first_author last_author first_aff last_aff doi,
    re_search_value match_d4 (get rec "DP" (VStr "")) = Ok year_match /\
    (if truthy (get rec "AU" (VList []))
     then index_first (get rec "AU" (VList [])) else Ok (VStr "")) = Ok first_author /\
    (if truthy (get rec "AU" (VList []))
     then index_last (get rec "AU" (VList [])) else Ok (VStr "")) = Ok last_author /\
    (if truthy (get rec "AD" (VStr ""))
     then index_first (get rec "AD" (VStr "")) else Ok (VStr "")) = Ok first_aff /\
    (if truthy (get rec "AD" (VStr ""))
     then index_last (get rec "AD" (VStr "")) else Ok (VStr "")) = Ok last_aff /\
    resolve_doi rec = Ok doi /\
    row =
    [ ("Journal_TTL", get rec "JT" (VStr ""));
      ("Journal_ABBRV", get rec "TA" (VStr ""));
      ("Title", get rec "TI" (VStr ""));
      ("Year", VStr (match year_match with Some y => y | None => "" end));
      ("Pages", get rec "PG" (VStr ""));
      ("Issue", get rec "IP" (VStr ""));
      ("Volume", get rec "VI" (VStr ""));
      ("First Author", first_author);
      ("First Author Affiliation", first_aff);
      ("Last Author", last_author);
      ("Last Author Affiliation", last_aff);
      ("DOI", VStr doi);
      ("Link", VStr (if truthy (get rec "PMID" (VStr ""))
                     then format config.LINK_TEMPLATE (get rec "PMID" (VStr ""))
                     else ""));
      ("Authors", get rec "AU" (VList [])) ].
Proof.
  unfold process_record_body. cbv zeta. intros H.
  apply bind_Ok in H as (ym & E1 & H).
  apply bind_Ok in H as (fa & E2 & H).
  apply bind_Ok in H as (la & E3 & H).
  apply bind_Ok in H as (faa & E4 & H).
  apply bind_Ok in H as (laa & E5 & H).
  apply bind_Ok in H as (doi & E6 & H).
  injection H as <-.
  exists ym, fa, la, faa, laa, doi. repeat (split; [assumption|]). reflexivity.
Qed.

(** A completed row has the fourteen columns of [OUTPUT_HEADERS], in
    their order. *)
Lemma completed_row_headers (rec : Rec) (row : Row) :
  process_record_body rec = Ok row -> map fst row = config.OUTPUT_HEADERS.
Proof.
  intros H. apply process_record_body_inv in H
    as (ym & fa & la & faa & laa & doi & _ & _ & _ & _ & _ & _ & ->).
  reflexivity.
Qed.

(** C6: a record with none of the twelve fields normalises, without
    raising, to the row of defaults: fourteen columns, each the empty
    string, the author list the empty list. *)
Theorem process_record_defaults (rec : Rec)
    (absent : forall tag, In tag record_tags -> rec !! tag = None) :
  process_record_body rec = Ok default_row /\
  process_record rec = default_row /\
  map fst default_row = config.OUTPUT_HEADERS /\
  length default_row = 14.
Proof.
  assert (process_record_body rec = Ok default_row) as H.
  { unfold process_record_body, resolve_doi, doi_from_lid, get, has.
    rewrite !absent by (simpl; tauto). reflexivity. }
  unfold process_record. rewrite H. repeat split.
Qed.

Lemma process_record_defaults_witness :
  process_record_body (∅ : Rec) = Ok default_row /\
  process_record (∅ : Rec) = default_row /\
  map fst default_row = config.OUTPUT_HEADERS /\
  length default_row = 14.
Proof. apply (process_record_defaults ∅). intros tag _. reflexivity. Defined.

(** *** Rows are appended whole or not at all *)

Lemma append_processed_completed (all_data : list Row) (rec : Rec) :
  append_processed all_data rec = all_data ++ option_list (completed rec).
Proof.
  unfold append_processed, process_record, completed.
  destruct (process_record_body rec) as [row|e] eqn:E; simpl.
  - apply completed_row_headers in E. destruct row; [discriminate|reflexivity].
  - now rewrite app_nil_r.
Qed.

Lemma process_records_completed (all_data : list Row) (records : list Rec) :
  process_records all_data records = all_data ++ omap completed records.
Proof.
  unfold process_records. revert all_data.
  induction records as [|rec records IH]; intros all_data; simpl.
  - now rewrite app_nil_r.
  - rewrite IH, append_processed_completed.
    destruct (completed rec); simpl; [now rewrite <- app_assoc|now rewrite app_nil_r].
Qed.

(** C7: a record whose normalisation raises adds nothing to the result
    set; over any list of records the result set grows by the rows of the
    records that complete, each of them with all fourteen columns. *)
Theorem raising_record_is_dropped (all_data : list Row) (records : list Rec)
    (rec : Rec) (e : exn) (raises : process_record_body rec = Raise e) :
  process_record rec = [] /\
  process_records all_data [rec] = all_data /\
  process_records all_data records = all_data ++ omap completed records /\
  Forall (fun row => map fst row = config.OUTPUT_HEADERS) (omap completed records).
Proof.
  split; [|split; [|split]].
  - unfold process_record. now rewrite raises.
  - rewrite process_records_completed. simpl. unfold completed. rewrite raises.
    simpl. apply app_nil_r.
  - apply process_records_completed.
  - apply Forall_forall. intros row Hin.
    apply list_elem_of_omap in Hin as (r & _ & Hr).
    unfold completed in Hr. destruct (process_record_body r) as [row'|] eqn:E; [|discriminate].
    injection Hr as ->. now apply completed_row_headers in E.
Qed.

Lemma raising_record_is_dropped_witness :
  process_record {[ "DP" := VList ["2021"] ]} = [] /\
  process_records [] [ {[ "DP" := VList ["2021"] ]} ] = [] /\
  process_records [] [ {[ "DP" := VList ["2021"] ]}; ∅ ] =
    [] ++ omap completed [ {[ "DP" := VList ["2021"] ]}; ∅ ] /\
  Forall (fun row => map fst row = config.OUTPUT_HEADERS)
         (omap completed [ {[ "DP" := VList ["2021"] ]}; ∅ ]).
Proof.
  apply (raising_record_is_dropped [] [ {[ "DP" := VList ["2021"] ]}; ∅ ]
           {[ "DP" := VList ["2021"] ]} TypeError).
  vm_compute. reflexivity.
Defined.

(** One raising record among three: two rows come out, both whole. *)
Example one_of_three_dropped :
  process_records []
    [ {[ "TI" := VStr "A trial" ]}; {[ "LID" := VList ["10.1/x [doi]"] ]};
      {[ "DP" := VStr "2021 Jun 15" ]} ] =
  [ process_record {[ "TI" := VStr "A trial" ]};
    process_record {[ "DP" := VStr "2021 Jun 15" ]} ].
Proof. vm_compute. reflexivity. Qed.

(** *** Affiliations *)

Lemma last_char_cons (c : ascii) (s : string) : exists d, last_char (String c s) = Some d.
Proof.
  revert c. induction s as [|b s IH]; intros c; [now exists c|].
  destruct (IH b) as [d Hd]. exists d. simpl in Hd |- *. exact Hd.
Qed.

(** C2: when the affiliation field is one string, the first and last
    affiliation of the row are its first and its last character, not the
    string: indexing takes the string itself for the sequence. *)
Theorem scalar_affiliation_indexed_by_character (rec : Rec) (row : Row)
    (c : ascii) (s : string)
    (scalar : rec !! "AD" = Some (VStr (String c s)))
    (done : process_record_body rec = Ok row) :
  field "First Author Affiliation" row = Some (VStr (chr c)) /\
  exists d, last_char (String c s) = Some d /\
            field "Last Author Affiliation" row = Some (VStr (chr d)).
Proof.
  apply process_record_body_inv in done
    as (ym & fa & la & faa & laa & doi & _ & _ & _ & E4 & E5 & _ & ->).
  unfold get in E4, E5. rewrite scalar in E4, E5.
  destruct (last_char_cons c s) as [d Hd].
  cbn [truthy truthy_str index_first index_last] in E4, E5. rewrite Hd in E5.
  injection E4 as <-. injection E5 as <-.
  split; [reflexivity|]. exists d. split; [exact Hd|reflexivity].
Qed.

Lemma scalar_affiliation_indexed_by_character_witness :
  field "First Author Affiliation"
        (process_record {[ "AD" := VStr "Harvard Medical School" ]})
  = Some (VStr "H") /\
  exists d, last_char "Harvard Medical School" = Some d /\
            field "Last Author Affiliation"
                  (process_record {[ "AD" := VStr "Harvard Medical School" ]})
            = Some (VStr (chr d)).
Proof.
  apply (scalar_affiliation_indexed_by_character
           {[ "AD" := VStr "Harvard Medical School" ]} _ "H" "arvard Medical School").
  - vm_compute. reflexivity.
  - vm_compute. reflexivity.
Defined.

(** The two affiliations of that record, and those of a record whose
    field is a list. *)
Example affiliation_scalar_and_list :
  field "First Author Affiliation"
        (process_record {[ "AD" := VStr "Harvard Medical School" ]}) = Some (VStr "H") /\
  field "Last Author Affiliation"
        (process_record {[ "AD" := VStr "Harvard Medical School" ]}) = Some (VStr "l") /\
  field "First Author Affiliation"
        (process_record {[ "AD" := VList ["Harvard Medical School"; "Oxford"] ]})
  = Some (VStr "Harvard Medical School") /\
  field "Last Author Affiliation"
        (process_record {[ "AD" := VList ["Harvard Medical School"; "Oxford"] ]})
  = Some (VStr "Oxford").
Proof. vm_compute. repeat split. Qed.

(** *** The year *)

(** C3, as the code has it: the year of a completed row is the leftmost
    four digits in a row of the publication date, so the first four digits
    of a longer run too, and the empty string when the field is absent or
    has no four digits in a row. *)
Theorem year_is_first_four_digits (rec : Rec) (row : Row)
    (done : process_record_body rec = Ok row) :
  exists y,
    field "Year" row = Some (VStr y) /\
    match rec !! "DP" with
    | None => y = ""
    | Some (VStr dp) => year_of dp y
    | Some (VList _) => False
    end.
Proof.
  apply process_record_body_inv in done
    as (ym & fa & la & faa & laa & doi & E1 & _ & _ & _ & _ & _ & ->).
  exists (match ym with Some y => y | None => "" end). split; [reflexivity|].
  unfold get in E1. destruct (rec !! "DP") as [[dp|l]|]; simpl in E1.
  - injection E1 as <-. apply re_search_year.
  - discriminate.
  - now injection E1 as <-.
Qed.

Lemma year_is_first_four_digits_witness :
  exists y,
    field "Year" (process_record {[ "DP" := VStr "2021 Jun 15" ]}) = Some (VStr y) /\
    match ({[ "DP" := VStr "2021 Jun 15" ]} : Rec) !! "DP" with
    | None => y = ""
    | Some (VStr dp) => year_of dp y
    | Some (VList _) => False
    end.
Proof.
  apply (year_is_first_four_digits {[ "DP" := VStr "2021 Jun 15" ]}).
  vm_compute. reflexivity.
Defined.

(** The dates of the specification, and a date with no four digits. *)
Example year_examples :
  field "Year" (process_record {[ "DP" := VStr "2021 Jun 15" ]}) = Some (VStr "2021") /\
  field "Year" (process_record {[ "DP" := VStr "Jun 2021" ]}) = Some (VStr "2021") /\
  field "Year" (process_record {[ "DP" := VStr "Jun 15" ]}) = Some (VStr "") /\
  field "Year" (process_record ∅) = Some (VStr "").
Proof. vm_compute. repeat split. Qed.

(** A run of five digits yields a year, its first four digits, where the
    first run of exactly four digits would be none. *)
Lemma year_of_longer_run :
  field "Year" (process_record {[ "DP" := VStr "12345 Jun" ]}) = Some (VStr "1234") /\
  exact_four_run "12345 Jun" "" = "".
Proof. vm_compute. split; reflexivity. Qed.

Example exact_four_run_examples :
  exact_four_run "2021 Jun 15" "" = "2021" /\ exact_four_run "Jun 2021" "" = "2021".
Proof. vm_compute. split; reflexivity. Qed.

(** *** The DOI pattern *)

Lemma take_while_spec (f : ascii -> bool) (s : string) :
  exists post,
    s = take_while f s +:+ post /\ forallb f (take_while f s) = true /\
    match post with
    | "" => True
    | String c _ => f c = false
    end.
Proof.
  induction s as [|a s (post & E & F & P)]; simpl.
  - now exists "".
  - destruct (f a) eqn:Fa.
    + exists post. rewrite sapp_cons, <- E. simpl. rewrite Fa, F. now repeat split.
    + exists (String a s). now repeat split.
Qed.

Lemma take_while_app (f : ascii -> bool) (run post : string) :
  forallb f run = true ->
  match post with
  | "" => True
  | String c _ => f c = false
  end ->
  take_while f (run +:+ post) = run.
Proof.
  intros F P. induction run as [|a run IH].
  - rewrite sapp_nil_l. destruct post as [|c post]; [reflexivity|]. simpl. now rewrite P.
  - simpl in F. apply andb_prop in F as [Fa F].
    rewrite sapp_cons. simpl. now rewrite Fa, (IH F).
Qed.

Lemma match_doi_Some (s d : string) : match_doi s = Some d -> doi_match_at s "" d.
Proof.
  unfold match_doi.
  destruct s as [|c1 [|c2 [|c3 rest]]]; try discriminate;
    try (destruct c1 as [[] [] [] [] [] [] [] []]; discriminate).
  - destruct c1 as [[] [] [] [] [] [] [] []]; try discriminate.
    destruct c2 as [[] [] [] [] [] [] [] []]; discriminate.
  - destruct (Ascii.eqb_spec c1 "1") as [->|N1];
      [|destruct c1 as [[] [] [] [] [] [] [] []]; try discriminate; now contradict N1].
    destruct (Ascii.eqb_spec c2 "0") as [->|N2];
      [|destruct c2 as [[] [] [] [] [] [] [] []]; try discriminate; now contradict N2].
    destruct (Ascii.eqb_spec c3 ".") as [->|N3];
      [|destruct c3 as [[] [] [] [] [] [] [] []]; try discriminate; now contradict N3].
    destruct (take_while_spec (fun c => negb (is_space c)) rest) as (post & E & F & P).
    destruct (take_while (fun c => negb (is_space c)) rest) as [|a run] eqn:T; [discriminate|].
    intros [= <-]. exists (String a run), post. rewrite sapp_nil_l.
    split; [now rewrite E at 1|]. repeat split; [discriminate|exact F|].
    destruct post as [|c post]; [exact I|]. now apply negb_false_iff in P.
Qed.

Lemma match_doi_complete (run post : string) :
  run <> "" -> forallb (fun c => negb (is_space c)) run = true ->
  match post with
  | "" => True
  | String c _ => is_space c = true
  end ->
  match_doi ("10." +:+ run +:+ post) = Some ("10." +:+ run).
Proof.
  intros N F P. rewrite !sapp_cons, sapp_nil_l. unfold match_doi.
  rewrite take_while_app.
  - destruct run; [contradiction|reflexivity].
  - exact F.
  - destruct post as [|c post]; [exact I|]. now rewrite P.
Qed.

Lemma re_search_doi_Some (lid d : string) :
  re_search match_doi lid = Some d -> first_doi_match lid d /\ d <> "".
Proof.
  intros H. apply re_search_Some in H as (pre & rest & -> & Hm & Hmin).
  apply match_doi_Some in Hm as (run & post & -> & -> & N & F & P).
  split.
  - exists pre. split.
    + exists run, post. now rewrite sapp_nil_l.
    + intros pre' d' (run' & post' & Heq & _ & N' & F' & P').
      destruct (le_lt_dec (String.length pre) (String.length pre')) as [|Hlt]; [assumption|].
      rewrite sapp_nil_l in Heq. specialize (Hmin pre' _ Heq Hlt).
      rewrite match_doi_complete in Hmin by assumption. discriminate.
  - rewrite sapp_cons. discriminate.
Qed.

Lemma re_search_doi_None (lid : string) : re_search match_doi lid = None -> no_doi_match lid.
Proof.
  intros H pre d (run & post & Heq & _ & N & F & P).
  pose proof (re_search_None _ _ H pre _ Heq) as Hn.
  rewrite match_doi_complete in Hn by assumption. discriminate.
Qed.

(** *** The first piece of a split *)

Lemma startswith_nil_false (sep : string) : sep <> "" -> startswith sep "" = false.
Proof. destruct sep; [contradiction|reflexivity]. Qed.

Lemma split_go_head (sep s cur : string) :
  sep <> "" ->
  exists r rest, split_go sep s 0 cur = (cur +:+ r) :: rest /\ before_first sep s r.
Proof.
  intros Hsep. revert cur. induction s as [|c s IH]; intros cur.
  - exists "", []. split; [simpl; now rewrite sapp_nil_r|].
    right. simpl. now rewrite startswith_nil_false.
  - simpl. destruct (startswith sep (String c s)) eqn:E.
    + exists "", (split_go sep s (String.length sep - 1) "").
      split; [now rewrite sapp_nil_r|].
      left. apply startswith_inv in E as [post E]. exists post.
      split; [now rewrite sapp_nil_l|]. intros r' post' _. simpl. lia.
    + destruct (IH (cur +:+ chr c)) as (r & rest & Hgo & Hb).
      exists (String c r), rest. split.
      { rewrite Hgo. unfold chr. now rewrite sapp_assoc, sapp_cons, sapp_nil_l. }
      destruct Hb as [(post & Hs & Hmin)|[Hc ->]].
      * left. exists post. split; [now rewrite sapp_cons, <- Hs|].
        intros [|b r'] post' Heq.
        -- rewrite sapp_nil_l in Heq. rewrite Heq, startswith_app in E. discriminate.
        -- rewrite sapp_cons in Heq. injection Heq as _ Heq.
           specialize (Hmin _ _ Heq). simpl. lia.
      * right. split; [|reflexivity]. simpl. now rewrite Hc, orb_false_r.
Qed.

Lemma split_item0 (sep s : string) :
  sep <> "" -> exists r, item0 (split sep s) = Ok r /\ before_first sep s r.
Proof.
  intros Hsep. destruct (split_go_head sep s "" Hsep) as (r & rest & Hgo & Hb).
  exists r. unfold split. rewrite Hgo, sapp_nil_l. now split.
Qed.

(** *** The two stages of the DOI *)

Lemma aid_loop_first_marked (l1 l2 : list string) (e doi : string) :
  Forall unmarked l1 -> contains "[doi]" e = true ->
  aid_loop (l1 ++ e :: l2) doi = item0 (split " [doi]" e).
Proof.
  intros H1 He. induction H1 as [|x l1 Hx _ IH]; simpl.
  - now rewrite He.
  - unfold unmarked in Hx. now rewrite Hx.
Qed.

Lemma aid_loop_unmarked (l : list string) (doi : string) :
  Forall unmarked l -> aid_loop l doi = Ok doi.
Proof.
  intros H. induction H as [|x l Hx _ IH]; simpl; [reflexivity|].
  unfold unmarked in Hx. now rewrite Hx.
Qed.

Lemma first_marked_or_none (l : list string) :
  (exists l1 e l2, l = l1 ++ e :: l2 /\ Forall unmarked l1 /\ contains "[doi]" e = true) \/
  Forall unmarked l.
Proof.
  induction l as [|x l IH]; [right; constructor|].
  destruct (contains "[doi]" x) eqn:Hx.
  - left. now exists [], x, l.
  - destruct IH as [(l1 & e & l2 & -> & H1 & He)|H].
    + left. exists (x :: l1), e, l2. repeat split; [now constructor|exact He].
    + right. now constructor.
Qed.

Lemma doi_from_lid_stage (rec : Rec) (d : string) :
  doi_from_lid rec = Ok d -> lid_stage rec d.
Proof.
  unfold doi_from_lid, get.
  destruct (rec !! "LID") as [[lid|[|x l]]|] eqn:L; cbn [truthy truthy_str].
  - destruct lid as [|c lid]; cbn [truthy_str re_search_value]; rewrite ?bind_Ok_l.
    + intros [= <-]. apply (lid_no_match _ ""); [exact L|].
      now apply re_search_doi_None.
    + destruct (re_search match_doi (String c lid)) as [d'|] eqn:R; intros [= <-].
      * apply (lid_match _ _ _ L). now apply re_search_doi_Some.
      * apply (lid_no_match _ _ L). now apply re_search_doi_None.
  - intros [= <-]. now apply lid_empty_list.
  - discriminate.
  - intros [= <-]. now apply lid_absent.
Qed.

Lemma doi_from_aid_stage (rec : Rec) (d : string) :
  doi_from_aid rec "" = Ok d -> aid_stage rec d.
Proof.
  unfold doi_from_aid, getitem.
  destruct (rec !! "AID") as [[s|l]|] eqn:A; simpl; [| |discriminate].
  - destruct (contains "[doi]" s) eqn:C.
    + destruct (split_item0 " [doi]" s) as (r & -> & Hb); [discriminate|].
      intros [= <-]. now apply (aid_scalar _ s).
    + intros [= <-]. now apply (aid_scalar_unmarked _ s).
  - destruct (first_marked_or_none l) as [(l1 & e & l2 & -> & H1 & He)|H].
    + rewrite aid_loop_first_marked by assumption.
      destruct (split_item0 " [doi]" e) as (r & -> & Hb); [discriminate|].
      intros [= <-]. now apply (aid_list _ l1 e l2).
    + rewrite aid_loop_unmarked by assumption.
      intros [= <-]. now apply (aid_list_unmarked _ l).
Qed.

Lemma resolve_doi_of (rec : Rec) (d : string) : resolve_doi rec = Ok d -> doi_of rec d.
Proof.
  unfold resolve_doi. intros H. apply bind_Ok in H as (doi & Hl & H).
  pose proof (doi_from_lid_stage _ _ Hl) as Sl.
  destruct doi as [|c doi]; simpl in H.
  - unfold has in H. destruct (rec !! "AID") eqn:A.
    + apply doi_stage_b; [exact Sl|]. now apply doi_from_aid_stage.
    + injection H as <-. apply doi_stage_b; [exact Sl|]. now apply aid_absent.
  - injection H as <-. now apply doi_stage_a.
Qed.

(** C5, as the code has it: the DOI of a completed row comes from two
    stages in strict order.  (a) The leftmost text [10.] followed by
    non-space characters in the link identifier, when there is one.
    (b) Only when (a) gave nothing: the first article identifier holding
    [[doi]], cut before its first [ [doi]], the separator with its space,
    and left whole when the marker has no space before it.  Else the empty
    string. *)
Theorem doi_two_stage_resolution (rec : Rec) (row : Row)
    (done : process_record_body rec = Ok row) :
  exists doi, field "DOI" row = Some (VStr doi) /\ doi_of rec doi.
Proof.
  apply process_record_body_inv in done
    as (ym & fa & la & faa & laa & doi & _ & _ & _ & _ & _ & E6 & ->).
  exists doi. split; [reflexivity|]. now apply resolve_doi_of.
Qed.

Lemma doi_two_stage_resolution_witness :
  exists doi,
    field "DOI" (process_record {[ "LID" := VStr "10.1056/NEJMoa2035389 [doi]" ]})
    = Some (VStr doi) /\
    doi_of {[ "LID" := VStr "10.1056/NEJMoa2035389 [doi]" ]} doi.
Proof.
  apply (doi_two_stage_resolution {[ "LID" := VStr "10.1056/NEJMoa2035389 [doi]" ]}).
  vm_compute. reflexivity.
Defined.

(** The records of the specification: stage (a), stage (b), neither, and
    stage (a) taking precedence over a marked article identifier. *)
Example doi_examples :
  field "DOI" (process_record {[ "LID" := VStr "10.1056/NEJMoa2035389 [doi]" ]})
  = Some (VStr "10.1056/NEJMoa2035389") /\
  field "DOI" (process_record
                 {[ "AID" := VList [ "S0140-6736(21)00001-0 [doi]";
                                     "10.1016/S0140-6736(21)00001-0 [pii]" ] ]})
  = Some (VStr "S0140-6736(21)00001-0") /\
  field "DOI" (process_record ∅) = Some (VStr "") /\
  field "DOI" (process_record {[ "LID" := VStr "10.1/a [doi]"; "AID" := VStr "10.2/b [doi]" ]})
  = Some (VStr "10.1/a").
Proof. vm_compute. repeat split. Qed.

(** An article identifier whose marker has no space before it is the DOI
    as it stands, marker included, not the text before the marker. *)
Lemma doi_keeps_unspaced_marker :
  field "DOI" (process_record {[ "AID" := VStr "10.1000/x[doi]" ]})
  = Some (VStr "10.1000/x[doi]") /\
  text_before "[doi]" "10.1000/x[doi]" = "10.1000/x".
Proof. vm_compute. split; reflexivity. Qed.

(** C10: when the link identifier gave nothing, the entry that sets the
    DOI is the article identifier itself if it is one string with the
    marker, else the first entry of the list with the marker, whatever
    follows it; the DOI is that entry's text before its first [ [doi]],
    so the whole entry when the marker has no space before it. *)
Theorem doi_from_first_marked_entry (rec : Rec) (row : Row) (e : string)
    (done : process_record_body rec = Ok row)
    (fall_through : doi_from_lid rec = Ok "")
    (entry : first_marked_entry rec e) :
  exists doi,
    field "DOI" row = Some (VStr doi) /\
    before_first " [doi]" e doi /\
    (contains " [doi]" e = false -> doi = e).
Proof.
  apply process_record_body_inv in done
    as (ym & fa & la & faa & laa & doi & _ & _ & _ & _ & _ & E6 & ->).
  exists doi. split; [reflexivity|].
  assert (before_first " [doi]" e doi) as Hb.
  { unfold resolve_doi in E6. rewrite fall_through in E6. simpl in E6.
    destruct (split_item0 " [doi]" e) as (r & Hr & Hb); [discriminate|].
    destruct entry as [He [A|(l1 & l2 & A & H1)]];
      unfold has, doi_from_aid, getitem in E6; rewrite A in E6; simpl in E6.
    - rewrite He, Hr in E6. now injection E6 as <-.
    - rewrite aid_loop_first_marked, Hr in E6 by assumption. now injection E6 as <-. }
  split; [exact Hb|]. intros Hc.
  destruct Hb as [(post & -> & _)|[_ ->]]; [|reflexivity].
  now rewrite contains_intro in Hc.
Qed.

Lemma doi_from_first_marked_entry_witness :
  exists doi,
    field "DOI" (process_record
                   {[ "AID" := VList ["S1 [pii]"; "10.1000/x[doi]"; "10.2000/y [doi]"] ]})
    = Some (VStr doi) /\
    before_first " [doi]" "10.1000/x[doi]" doi /\
    (contains " [doi]" "10.1000/x[doi]" = false -> doi = "10.1000/x[doi]").
Proof.
  apply (doi_from_first_marked_entry
           {[ "AID" := VList ["S1 [pii]"; "10.1000/x[doi]"; "10.2000/y [doi]"] ]}).
  - vm_compute. reflexivity.
  - vm_compute. reflexivity.
  - split; [vm_compute; reflexivity|].
    right. exists ["S1 [pii]"], ["10.2000/y [doi]"].
    split; [vm_compute; reflexivity|].
    constructor; [vm_compute; reflexivity|constructor].
Defined.

(** List order decides, and the separator is [ [doi]] with its space. *)
Example aid_examples :
  field "DOI" (process_record {[ "AID" := VList ["a [doi]"; "b [doi]"] ]}) = Some (VStr "a") /\
  field "DOI" (process_record {[ "AID" := VList ["S1 [pii]"; "10.1000/x[doi]"; "b [doi]"] ]})
  = Some (VStr "10.1000/x[doi]") /\
  field "DOI" (process_record {[ "AID" := VStr "a [doi] b [doi]" ]}) = Some (VStr "a") /\
  field "DOI" (process_record {[ "AID" := VStr "a[doi] b [doi]" ]}) = Some (VStr "a[doi] b").
Proof. vm_compute. repeat split. Qed.

(* ------------------------------------------------------------------ *)
(** ** Fetching and the run loop *)

Section ServiceFacts.

Variable Entrez_search : string -> nat -> result (gmap string (list string)).
Variable Entrez_fetch : list string -> result (list Rec).
Variable MAX_QUERIES : nat.

(** C8: when the Search Service raises, when it finds no identifier, and
    when the Fetch Service raises, [fetch_records] returns the empty list;
    in the first two cases the Fetch Service is not called.  A journal
    whose records come back empty leaves the result set as it was, and the
    run goes on with the journals that follow. *)
Theorem fetch_records_absorbs_failures (query : string) (retmax : nat) :
  (forall e, Entrez_search query retmax = Raise e ->
             fetch_records Entrez_search Entrez_fetch query retmax = ([Search query retmax], [])) /\
  (forall search_results,
      Entrez_search query retmax = Ok search_results ->
      search_results !! "IdList" = None \/ search_results !! "IdList" = Some [] ->
      fetch_records Entrez_search Entrez_fetch query retmax = ([Search query retmax], [])) /\
  (forall search_results ids e,
      Entrez_search query retmax = Ok search_results ->
      search_results !! "IdList" = Some ids -> ids <> [] ->
      Entrez_fetch ids = Raise e ->
      fetch_records Entrez_search Entrez_fetch query retmax = ([Search query retmax; Fetch ids], [])) /\
  (forall st journal journals calls,
      query = construct_query journal -> retmax = MAX_QUERIES ->
      fetch_records Entrez_search Entrez_fetch query retmax = (calls, []) ->
      run_from Entrez_search Entrez_fetch MAX_QUERIES (journal :: journals) st =
      run_from Entrez_search Entrez_fetch MAX_QUERIES journals (fst st ++ calls, snd st)).
Proof.
  unfold fetch_records, fetch_records_body.
  split; [|split; [|split]].
  - intros e ->. reflexivity.
  - intros sr -> [-> | ->]; reflexivity.
  - intros sr ids e -> -> Hne ->. destruct ids; [contradiction|reflexivity].
  - intros st journal journals calls -> -> H.
    unfold run_from. simpl. f_equal.
    unfold run_journal, fetch_records, fetch_records_body. now rewrite H.
Qed.

End ServiceFacts.

Lemma fetch_records_absorbs_failures_witness :
  fetch_records search_raising fetch_one "q" 20 = ([Search "q" 20], []) /\
  fetch_records search_nothing fetch_one "q" 20 = ([Search "q" 20], []) /\
  fetch_records search_one fetch_raising "q" 20
  = ([Search "q" 20; Fetch ["33301246"]], []) /\
  run_from search_raising fetch_one 20 ["Lancet"; "JAMA"] ([], [])
  = run_from search_raising fetch_one 20 ["JAMA"]
      ([] ++ [Search (construct_query "Lancet") 20], []).
Proof.
  split; [|split; [|split]].
  - apply (proj1 (fetch_records_absorbs_failures search_raising fetch_one 20 "q" 20)
             (ServiceError "HTTP Error 429")).
    reflexivity.
  - apply (proj1 (proj2 (fetch_records_absorbs_failures search_nothing fetch_one 20 "q" 20))
             {[ "IdList" := [] ]}); [reflexivity|].
    right. vm_compute. reflexivity.
  - apply (proj1 (proj2 (proj2
             (fetch_records_absorbs_failures search_one fetch_raising 20 "q" 20)))
             {[ "IdList" := ["33301246"] ]} ["33301246"]
             (ServiceError "incomplete read"));
      [reflexivity|vm_compute; reflexivity|discriminate|reflexivity].
  - apply (proj2 (proj2 (proj2
             (fetch_records_absorbs_failures search_raising fetch_one 20
                (construct_query "Lancet") 20)))
             ([], []) "Lancet" ["JAMA"] [Search (construct_query "Lancet") 20]);
      reflexivity.
Defined.

(** A run in which the search fails for every journal ends with an empty
    result set after one search per journal and no fetch; with working
    services every journal contributes its record. *)
Example run_examples :
  snd (run search_raising fetch_one 20) = [] /\
  length (fst (run search_raising fetch_one 20)) = length config.JOURNALS /\
  snd (run search_one fetch_raising 20) = [] /\
  length (snd (run search_one fetch_one 20)) = length config.JOURNALS.
Proof. vm_compute. repeat split. Qed.

(* ------------------------------------------------------------------ *)
(** ** Further properties of the record normaliser *)

(** *** When normalisation raises *)

Lemma last_cons_Some {A : Type} (a : A) (l : list A) : exists z, last (a :: l) = Some z.
Proof.
  revert a. induction l as [|b l IH]; intros a; [now exists a|].
  destruct (IH b) as [z Hz]. exists z. exact Hz.
Qed.

Lemma index_truthy (v d : value) :
  exists x y,
    (if truthy v then index_first v else Ok d) = Ok x /\
    (if truthy v then index_last v else Ok d) = Ok y.
Proof.
  destruct v as [[|c s]|[|a l]]; cbn [truthy truthy_str]; try (now exists d, d).
  - destruct (last_char_cons c s) as [z Hz]. exists (VStr (chr c)), (VStr (chr z)).
    cbn [index_first index_last]. now rewrite Hz.
  - destruct (last_cons_Some a l) as [z Hz]. exists (VStr a), (VStr z).
    cbn [index_first index_last]. now rewrite Hz.
Qed.

Lemma aid_loop_total (l : list string) (doi : string) : exists d, aid_loop l doi = Ok d.
Proof.
  destruct (first_marked_or_none l) as [(l1 & e & l2 & -> & H1 & He)|H].
  - rewrite aid_loop_first_marked by assumption.
    destruct (split_item0 " [doi]" e) as (r & Hr & _); [discriminate|]. now exists r.
  - rewrite aid_loop_unmarked by assumption. now exists doi.
Qed.

Lemma doi_from_aid_total (rec : Rec) (doi : string) :
  has rec "AID" = true -> exists d, doi_from_aid rec doi = Ok d.
Proof.
  unfold has, doi_from_aid, getitem.
  destruct (rec !! "AID") as [[s|l]|]; [| |discriminate]; intros _; rewrite bind_Ok_l.
  - destruct (contains "[doi]" s); [|now exists doi].
    destruct (split_item0 " [doi]" s) as (r & Hr & _); [discriminate|]. now exists r.
  - apply aid_loop_total.
Qed.

Lemma doi_from_lid_total (rec : Rec) :
  match doi_from_lid rec with
  | Ok _ => match rec !! "LID" with Some (VList (_ :: _)) => False | _ => True end
  | Raise e => e = TypeError /\
               match rec !! "LID" with Some (VList (_ :: _)) => True | _ => False end
  end.
Proof.
  unfold doi_from_lid, get.
  destruct (rec !! "LID") as [[[|c s]|[|a l]]|]; cbn [truthy truthy_str re_search_value];
    rewrite ?bind_Ok_l; now try split.
Qed.

Lemma resolve_doi_total (rec : Rec) :
  match resolve_doi rec with
  | Ok _ => match rec !! "LID" with Some (VList (_ :: _)) => False | _ => True end
  | Raise e => e = TypeError /\
               match rec !! "LID" with Some (VList (_ :: _)) => True | _ => False end
  end.
Proof.
  unfold resolve_doi. pose proof (doi_from_lid_total rec) as H.
  destruct (doi_from_lid rec) as [doi|e]; [rewrite bind_Ok_l|exact H].
  destruct (negb (truthy_str doi) && has rec "AID") eqn:E; [|exact H].
  apply andb_prop in E as [_ E].
  destruct (doi_from_aid_total rec doi E) as [d ->]. exact H.
Qed.

Lemma get_lookup (rec : Rec) (key : string) (d : value) :
  get rec key d = match rec !! key with Some v => v | None => d end.
Proof. reflexivity. Qed.

Lemma process_record_body_bad_shape (rec : Rec) :
  match process_record_body rec with
  | Ok _ => bad_shape rec = false
  | Raise e => e = TypeError /\ bad_shape rec = true
  end.
Proof.
  unfold process_record_body, bad_shape. cbv zeta.
  rewrite (get_lookup rec "DP").
  destruct (rec !! "DP") as [[dp|l]|]; cbn [re_search_value]; rewrite ?bind_Ok_l;
    try (now split).
  all: destruct (index_truthy (get rec "AU" (VList [])) (VStr "")) as (x & y & -> & ->);
    destruct (index_truthy (get rec "AD" (VStr "")) (VStr "")) as (x' & y' & -> & ->);
    rewrite !bind_Ok_l;
    pose proof (resolve_doi_total rec) as H;
    destruct (resolve_doi rec) as [doi|e]; [rewrite bind_Ok_l|];
    destruct (rec !! "LID") as [[lid|[|a l]]|]; simpl; (tauto || (destruct H; now split)).
Qed.

(** X1: normalisation raises on exactly two shapes of record, a publication
    date that is a list and a link identifier that is a non-empty list, and
    what it raises is a [TypeError]; every other record completes. *)
Theorem process_record_raises_iff_bad_shape (rec : Rec) :
  match process_record_body rec with
  | Ok _ => bad_shape rec = false
  | Raise e => e = TypeError /\ bad_shape rec = true
  end.
Proof. exact (process_record_body_bad_shape rec). Qed.

(** *** Only the twelve fields count *)

(** X2: two records that agree on the twelve fields [process_record] reads
    normalise alike, whatever else they hold. *)
Theorem process_record_reads_twelve_fields (rec rec' : Rec)
    (agree : forall tag, In tag record_tags -> rec !! tag = rec' !! tag) :
  process_record_body rec = process_record_body rec' /\
  process_record rec = process_record rec'.
Proof.
  assert (process_record_body rec = process_record_body rec') as H.
  { unfold process_record_body, resolve_doi, doi_from_lid, doi_from_aid, get, has, getitem.
    rewrite !agree by (simpl; tauto). reflexivity. }
  split; [exact H|]. unfold process_record. now rewrite H.
Qed.

Lemma process_record_reads_twelve_fields_witness :
  process_record_body {[ "TI" := VStr "A trial"; "AB" := VStr "Background: none." ]}
  = process_record_body {[ "TI" := VStr "A trial" ]} /\
  process_record {[ "TI" := VStr "A trial"; "AB" := VStr "Background: none." ]}
  = process_record {[ "TI" := VStr "A trial" ]}.
Proof.
  apply (process_record_reads_twelve_fields
           {[ "TI" := VStr "A trial"; "AB" := VStr "Background: none." ]}
           {[ "TI" := VStr "A trial" ]}).
  intros tag H. simpl in H.
  repeat (destruct H as [<-|H]; [vm_compute; reflexivity|]). contradiction.
Defined.

(** *** Authors *)

(** X3: when the author field is a list, the first and the last author of the
    row are the first and the last name of the list, the same name when
    there is one only, and the author column is the list unchanged. *)
Theorem authors_first_and_last (rec : Rec) (row : Row)
    (names init tl : list string) (a z : string)
    (done : process_record_body rec = Ok row)
    (au : rec !! "AU" = Some (VList names))
    (first_is : names = a :: tl)
    (last_is : names = init ++ [z]) :
  field "First Author" row = Some (VStr a) /\
  field "Last Author" row = Some (VStr z) /\
  field "Authors" row = Some (VList names) /\
  (tl = [] -> a = z).
Proof.
  apply process_record_body_inv in done
    as (ym & fa & la & faa & laa & doi & _ & E2 & E3 & _ & _ & _ & ->).
  rewrite (get_lookup rec "AU"), au in E2, E3 |- *.
  assert (last names = Some z) as Hz by (rewrite last_is; apply last_snoc).
  rewrite first_is in E2, E3, Hz. cbn [truthy index_first index_last] in E2, E3.
  rewrite Hz in E3. injection E2 as <-. injection E3 as <-.
  repeat split. intros ->. now injection Hz.
Qed.

Lemma authors_first_and_last_witness :
  field "First Author" (process_record {[ "AU" := VList ["Smith J"; "Doe A"; "Lee K"] ]})
  = Some (VStr "Smith J") /\
  field "Last Author" (process_record {[ "AU" := VList ["Smith J"; "Doe A"; "Lee K"] ]})
  = Some (VStr "Lee K") /\
  field "Authors" (process_record {[ "AU" := VList ["Smith J"; "Doe A"; "Lee K"] ]})
  = Some (VList ["Smith J"; "Doe A"; "Lee K"]) /\
  (["Doe A"; "Lee K"] = [] -> "Smith J" = "Lee K").
Proof.
  apply (authors_first_and_last {[ "AU" := VList ["Smith J"; "Doe A"; "Lee K"] ]} _
           ["Smith J"; "Doe A"; "Lee K"] ["Smith J"; "Doe A"] ["Doe A"; "Lee K"]).
  - vm_compute. reflexivity.
  - vm_compute. reflexivity.
  - reflexivity.
  - reflexivity.
Defined.

(** *** The link *)

Lemma sapp_same_length (s s' t t' : string) :
  String.length s = String.length s' -> s +:+ t = s' +:+ t' -> s = s' /\ t = t'.
Proof.
  revert s'. induction s as [|a s IH]; intros [|b s'] L H; try discriminate.
  - now split.
  - rewrite !sapp_cons in H. injection H as -> H. simpl in L.
    destruct (IH s' ltac:(lia) H) as [-> ->]. now split.
Qed.

Lemma sapp_cancel_r (s s' t : string) : s +:+ t = s' +:+ t -> s = s'.
Proof.
  intros H. apply (sapp_same_length s s' t t); [|exact H].
  apply (f_equal String.length) in H. rewrite !slength_app in H. lia.
Qed.

(** X4: when the identifier is a string, the link is the PubMed address of
    that identifier, and empty for the empty identifier; so two rows have
    the same link exactly when their records have the same identifier. *)
Theorem link_identifies_pmid (rec rec' : Rec) (row row' : Row) (p p' : string)
    (done : process_record_body rec = Ok row)
    (done' : process_record_body rec' = Ok row')
    (pmid : rec !! "PMID" = Some (VStr p))
    (pmid' : rec' !! "PMID" = Some (VStr p')) :
  field "Link" row =
    Some (VStr (if truthy_str p then "https://pubmed.ncbi.nlm.nih.gov/" +:+ p +:+ "/" else "")) /\
  (field "Link" row = field "Link" row' <-> p = p').
Proof.
  apply process_record_body_inv in done
    as (ym & fa & la & faa & laa & doi & _ & _ & _ & _ & _ & _ & ->).
  apply process_record_body_inv in done'
    as (ym' & fa' & la' & faa' & laa' & doi' & _ & _ & _ & _ & _ & _ & ->).
  cbn [field String.eqb Ascii.eqb Bool.eqb].
  rewrite (get_lookup rec "PMID"), (get_lookup rec' "PMID"), pmid, pmid'.
  cbn [truthy format str fst snd config.LINK_TEMPLATE].
  split; [reflexivity|]. split; [|now intros ->].
  intros H. injection H as H.
  destruct p as [|c p], p' as [|c' p']; cbn [truthy_str] in H;
    [reflexivity|discriminate|discriminate|].
  apply String.app_inj in H. now apply sapp_cancel_r in H.
Qed.

Lemma link_identifies_pmid_witness :
  field "Link" (process_record {[ "PMID" := VStr "33301246" ]}) =
    Some (VStr (if truthy_str "33301246"
                then "https://pubmed.ncbi.nlm.nih.gov/" +:+ "33301246" +:+ "/" else "")) /\
  (field "Link" (process_record {[ "PMID" := VStr "33301246" ]})
   = field "Link" (process_record {[ "PMID" := VStr "33301247"; "TI" := VStr "B" ]})
   <-> "33301246" = "33301247").
Proof.
  apply (link_identifies_pmid {[ "PMID" := VStr "33301246" ]}
           {[ "PMID" := VStr "33301247"; "TI" := VStr "B" ]});
    vm_compute; reflexivity.
Defined.

(** *** The shape of the year and of the DOI *)

Lemma startswith_refl (s : string) : startswith s s = true.
Proof. rewrite <- (sapp_nil_r s) at 2. apply startswith_app. Qed.

Lemma forallb_app (f : ascii -> bool) (s t : string) :
  forallb f (s +:+ t) = forallb f s && forallb f t.
Proof.
  induction s as [|a s IH]; [reflexivity|].
  rewrite sapp_cons. simpl. now rewrite IH, andb_assoc.
Qed.



Lemma before_first_prefix (sep s r : string) : before_first sep s r -> startswith r s = true.
Proof.
  intros [(post & -> & _)|[_ ->]]; [apply startswith_app|apply startswith_refl].
Qed.

Lemma before_first_no_sep (sep s r : string) :
  sep <> "" -> before_first sep s r -> contains sep r = false.
Proof.
  intros Hsep [(post & -> & Hmin)|[Hc ->]]; [|exact Hc].
  destruct (contains sep r) eqn:C; [exfalso|reflexivity].
  apply contains_inv in C as (t & u & ->).
  specialize (Hmin t (u +:+ sep +:+ post)). rewrite !sapp_assoc in Hmin.
  specialize (Hmin eq_refl). rewrite !slength_app in Hmin.
  destruct sep; [contradiction|]. simpl in Hmin. lia.
Qed.

Lemma first_doi_match_shape (lid d : string) :
  first_doi_match lid d ->
  contains d lid = true /\ startswith "10." d = true /\ 4 <= String.length d /\
  forallb (fun c => negb (is_space c)) d = true.
Proof.
  intros (pre & (run & post & -> & -> & N & F & _) & _).
  split; [|split; [|split]].
  - rewrite <- (sapp_assoc "10." run post). apply contains_intro.
  - apply startswith_app.
  - rewrite slength_app. destruct run; [contradiction|]. simpl. lia.
  - now rewrite forallb_app, F.
Qed.

(** X6: the DOI of a completed row is empty, or a text without white space
    that starts with [10.] and stands in the link identifier, or the
    start of the article identifier that sets it. *)
Theorem doi_provenance (rec : Rec) (row : Row)
    (done : process_record_body rec = Ok row) :
  exists doi,
    field "DOI" row = Some (VStr doi) /\
    (doi = "" \/
     (exists lid,
         rec !! "LID" = Some (VStr lid) /\ contains doi lid = true /\
         startswith "10." doi = true /\ 4 <= String.length doi /\
         forallb (fun c => negb (is_space c)) doi = true) \/
     (exists e, first_marked_entry rec e /\ startswith doi e = true)).
Proof.
  apply process_record_body_inv in done
    as (ym & fa & la & faa & laa & doi & _ & _ & _ & _ & _ & E6 & ->).
  exists doi. split; [reflexivity|]. apply resolve_doi_of in E6.
  destruct E6 as [d Hl Hd|d _ Ha].
  - right; left. destruct Hl as [lid d L M| | |]; try contradiction.
    exists lid. split; [exact L|]. now apply first_doi_match_shape.
  - destruct Ha as [s d A C B|s A U|l1 e l2 d A U C B|l A U|A]; try (now left).
    + right; right. exists s. split; [|now apply before_first_prefix in B].
      split; [exact C|now left].
    + right; right. exists e. split; [|now apply before_first_prefix in B].
      split; [exact C|]. right. now exists l1, l2.
Qed.

Lemma doi_provenance_witness :
  exists doi,
    field "DOI" (process_record {[ "AID" := VList ["S1 [pii]"; "10.2000/y [doi]"] ]})
    = Some (VStr doi) /\
    (doi = "" \/
     (exists lid,
         ({[ "AID" := VList ["S1 [pii]"; "10.2000/y [doi]"] ]} : Rec) !! "LID"
         = Some (VStr lid) /\ contains doi lid = true /\
         startswith "10." doi = true /\ 4 <= String.length doi /\
         forallb (fun c => negb (is_space c)) doi = true) \/
     (exists e, first_marked_entry {[ "AID" := VList ["S1 [pii]"; "10.2000/y [doi]"] ]} e /\
                startswith doi e = true)).
Proof.
  apply (doi_provenance {[ "AID" := VList ["S1 [pii]"; "10.2000/y [doi]"] ]}).
  vm_compute. reflexivity.
Defined.

(** X7: the DOI of a completed row never holds the separator [ [doi]]. *)
Theorem doi_without_separator (rec : Rec) (row : Row)
    (done : process_record_body rec = Ok row) :
  exists doi, field "DOI" row = Some (VStr doi) /\ contains " [doi]" doi = false.
Proof.
  apply process_record_body_inv in done
    as (ym & fa & la & faa & laa & doi & _ & _ & _ & _ & _ & E6 & ->).
  exists doi. split; [reflexivity|]. apply resolve_doi_of in E6.
  destruct E6 as [d Hl Hd|d _ Ha].
  - destruct Hl as [lid d L M| | |]; try contradiction.
    apply first_doi_match_shape in M as (_ & _ & _ & F).
    destruct (contains " [doi]" d) eqn:C; [exfalso|reflexivity].
    apply contains_inv in C as (t & u & ->).
    rewrite !forallb_app in F. apply andb_prop in F as [_ F]. discriminate.
  - destruct Ha as [s d A C B|s A U|l1 e l2 d A U C B|l A U|A]; try reflexivity;
      now apply (before_first_no_sep " [doi]") in B.
Qed.

Lemma doi_without_separator_witness :
  exists doi,
    field "DOI" (process_record {[ "AID" := VStr "a [doi] b [doi]" ]}) = Some (VStr doi) /\
    contains " [doi]" doi = false.
Proof.
  apply (doi_without_separator {[ "AID" := VStr "a [doi] b [doi]" ]}).
  vm_compute. reflexivity.
Defined.

(** *** The columns of a completed row *)

Lemma field_In (key : string) (row : Row) :
  In key (map fst row) -> exists v, field key row = Some v.
Proof.
  induction row as [|[k v] row IH]; simpl; [contradiction|].
  intros [->|H].
  - exists v. now rewrite String.eqb_refl.
  - destruct (String.eqb k key); [now exists v|now apply IH].
Qed.

Lemma field_not_In (key : string) (row : Row) :
  ~ In key (map fst row) -> field key row = None.
Proof.
  induction row as [|[k v] row IH]; simpl; [reflexivity|].
  intros H. destruct (String.eqb_spec k key) as [->|_]; [tauto|]. apply IH. tauto.
Qed.

(** X8: a completed row is a non-empty dict in which no key is repeated; it
    can be read at each of the fourteen output headers and at no other
    key. *)
Theorem completed_row_columns (rec : Rec) (row : Row)
    (done : process_record_body rec = Ok row) :
  process_record rec = row /\
  truthy_dict row = true /\
  NoDup (map fst row) /\
  (forall h, In h config.OUTPUT_HEADERS -> exists v, field h row = Some v) /\
  (forall k, ~ In k config.OUTPUT_HEADERS -> field k row = None).
Proof.
  pose proof (completed_row_headers _ _ done) as Hk.
  split; [unfold process_record; now rewrite done|].
  split; [destruct row; [discriminate|reflexivity]|].
  rewrite <- Hk. split; [|split].
  - rewrite Hk. apply (bool_decide_unpack _). vm_compute. exact I.
  - intros h. apply field_In.
  - intros k. apply field_not_In.
Qed.

Lemma completed_row_columns_witness :
  process_record (∅ : Rec) = default_row /\
  truthy_dict default_row = true /\
  NoDup (map fst default_row) /\
  (forall h, In h config.OUTPUT_HEADERS -> exists v, field h default_row = Some v) /\
  (forall k, ~ In k config.OUTPUT_HEADERS -> field k default_row = None).
Proof. apply (completed_row_columns ∅). vm_compute. reflexivity. Defined.

(** *** How many rows come out *)

Lemma completed_bad_shape (rec : Rec) :
  completed rec = None <-> bad_shape rec = true.
Proof.
  unfold completed. pose proof (process_record_body_bad_shape rec) as H.
  destruct (process_record_body rec); split; intros E;
    (discriminate || tauto || congruence).
Qed.

(** X9: the inner loop adds one row for every record but those of the two
    raising shapes: the result set grows by the number of records that are
    not of a bad shape. *)
Theorem process_records_length (all_data : list Row) (records : list Rec) :
  length (process_records all_data records) =
  length all_data + length (List.filter (fun rec => negb (bad_shape rec)) records).
Proof.
  rewrite process_records_completed, length_app. f_equal.
  induction records as [|rec records IH]; [reflexivity|].
  change (omap completed (rec :: records))
    with (match completed rec with
          | Some row => row :: omap completed records
          | None => omap completed records
          end).
  cbn [List.filter].
  destruct (completed rec) as [row|] eqn:E.
  - destruct (bad_shape rec) eqn:B.
    + apply completed_bad_shape in B. congruence.
    + simpl. now rewrite IH.
  - apply completed_bad_shape in E. rewrite E. simpl. exact IH.
Qed.

Lemma omap_completed_length (records : list Rec) :
  length (omap completed records) <= length records.
Proof.
  induction records as [|rec records IH]; [reflexivity|].
  change (omap completed (rec :: records))
    with (match completed rec with
          | Some row => row :: omap completed records
          | None => omap completed records
          end).
  destruct (completed rec); simpl; lia.
Qed.

(* ------------------------------------------------------------------ *)
(** ** Further properties of fetching and of the run loop *)

Section RunFacts.

Variable Entrez_search : string -> nat -> result (gmap string (list string)).
Variable Entrez_fetch : list string -> result (list Rec).
Variable MAX_QUERIES : nat.

Lemma fetch_records_cases (query : string) (retmax : nat) :
  (fst (fetch_records Entrez_search Entrez_fetch query retmax) = [Search query retmax] /\
   snd (fetch_records Entrez_search Entrez_fetch query retmax) = []) \/
  (exists search_results ids,
      Entrez_search query retmax = Ok search_results /\
      search_results !! "IdList" = Some ids /\ ids <> [] /\
      fst (fetch_records Entrez_search Entrez_fetch query retmax)
      = [Search query retmax; Fetch ids] /\
      (snd (fetch_records Entrez_search Entrez_fetch query retmax) = [] \/
       Entrez_fetch ids
       = Ok (snd (fetch_records Entrez_search Entrez_fetch query retmax)))).
Proof.
  unfold fetch_records, fetch_records_body.
  destruct (Entrez_search query retmax) as [sr|e]; [|now left].
  destruct (sr !! "IdList") as [[|id ids]|] eqn:I; [now left| |now left].
  right. exists sr, (id :: ids). split; [reflexivity|]. split; [exact I|].
  split; [discriminate|].
  destruct (Entrez_fetch (id :: ids)) as [records|e]; simpl; auto.
Qed.

(** X10: [fetch_records] always makes the search, first, and after it at most
    one fetch, for the identifiers the search gave; what it returns is
    empty or the very list the Fetch Service returned for them. *)
Theorem fetch_records_protocol (query : string) (retmax : nat) :
  (fst (fetch_records Entrez_search Entrez_fetch query retmax) = [Search query retmax] /\
   snd (fetch_records Entrez_search Entrez_fetch query retmax) = []) \/
  (exists search_results ids,
      Entrez_search query retmax = Ok search_results /\
      search_results !! "IdList" = Some ids /\ ids <> [] /\
      fst (fetch_records Entrez_search Entrez_fetch query retmax)
      = [Search query retmax; Fetch ids] /\
      (snd (fetch_records Entrez_search Entrez_fetch query retmax) = [] \/
       Entrez_fetch ids
       = Ok (snd (fetch_records Entrez_search Entrez_fetch query retmax)))).
Proof. exact (fetch_records_cases query retmax). Qed.

Lemma run_from_calls (journals : list string) (st : list call * list Row) :
  fst (run_from Entrez_search Entrez_fetch MAX_QUERIES journals st) =
  fst st ++
  concat (map (fun journal =>
                 fst (fetch_records Entrez_search Entrez_fetch
                        (construct_query journal) MAX_QUERIES)) journals).
Proof.
  unfold run_from. revert st.
  induction journals as [|journal journals IH]; intros st; simpl.
  - now rewrite app_nil_r.
  - rewrite IH. unfold run_journal.
    destruct (fetch_records _ _ _ _) as [calls records]. simpl.
    now rewrite <- app_assoc.
Qed.

Lemma run_from_rows (journals : list string) (st : list call * list Row) :
  snd (run_from Entrez_search Entrez_fetch MAX_QUERIES journals st) =
  snd st ++
  concat (map (fun journal =>
                 omap completed
                      (snd (fetch_records Entrez_search Entrez_fetch
                              (construct_query journal) MAX_QUERIES))) journals).
Proof.
  unfold run_from. revert st.
  induction journals as [|journal journals IH]; intros st; simpl.
  - now rewrite app_nil_r.
  - rewrite IH. unfold run_journal.
    destruct (fetch_records _ _ _ _) as [calls records]. simpl.
    rewrite app_assoc. f_equal.
    destruct records as [|rec records]; [now rewrite app_nil_r|].
    apply process_records_completed.
Qed.

(** X11: [run] searches every configured journal once, in the configured
    order, each with the query of that journal and the configured cap. *)
Theorem run_searches_each_journal_once :
  List.filter is_search (fst (run Entrez_search Entrez_fetch MAX_QUERIES)) =
  map (fun journal => Search (construct_query journal) MAX_QUERIES) config.JOURNALS.
Proof.
  unfold run. rewrite run_from_calls. simpl fst. rewrite app_nil_l.
  induction config.JOURNALS as [|journal journals IH]; [reflexivity|].
  simpl. rewrite List.filter_app, IH. f_equal.
  destruct (fetch_records_cases (construct_query journal) MAX_QUERIES)
    as [[-> _]|(sr & ids & _ & _ & _ & -> & _)]; reflexivity.
Qed.

(** X12: the rows [run] hands to the sink are, journal by journal in the
    configured order and record by record in the fetched order, the rows of
    the records that complete. *)
Theorem run_rows_in_order :
  snd (run Entrez_search Entrez_fetch MAX_QUERIES) =
  concat (map (fun journal =>
                 omap completed
                      (snd (fetch_records Entrez_search Entrez_fetch
                              (construct_query journal) MAX_QUERIES)))
              config.JOURNALS).
Proof. unfold run. now rewrite run_from_rows. Qed.

(** X13: the result set only grows during a run, and every row added has the
    fourteen output headers. *)
Theorem run_from_appends_whole_rows (journals : list string) (st : list call * list Row) :
  exists rows,
    snd (run_from Entrez_search Entrez_fetch MAX_QUERIES journals st) = snd st ++ rows /\
    Forall (fun row => map fst row = config.OUTPUT_HEADERS) rows /\
    length rows <=
    list_sum (map (fun journal =>
                     length (snd (fetch_records Entrez_search Entrez_fetch
                                    (construct_query journal) MAX_QUERIES))) journals).
Proof.
  eexists. split; [apply run_from_rows|]. split.
  - apply Forall_concat, Forall_map, Forall_forall. intros journal _.
    apply Forall_forall. intros row Hin.
    apply list_elem_of_omap in Hin as (r & _ & Hr). unfold completed in Hr.
    destruct (process_record_body r) as [row'|] eqn:E; [|discriminate].
    injection Hr as ->. now apply completed_row_headers in E.
  - induction journals as [|journal journals IH]; [reflexivity|].
    simpl. rewrite length_app.
    pose proof (omap_completed_length
                  (snd (fetch_records Entrez_search Entrez_fetch
                          (construct_query journal) MAX_QUERIES))).
    lia.
Qed.

End RunFacts.

(* ------------------------------------------------------------------ *)
(** ** Further properties of the query builder *)

Lemma lower_length (s : string) : String.length (lower s) = String.length s.
Proof. induction s as [|a s IH]; [reflexivity|]. simpl. now rewrite IH. Qed.

(** The lengths of the fixed texts on both sides of a length equation. *)
Ltac closed_lengths L :=
  match type of L with
  | _ + ?a = _ + ?b =>
      let a' := eval vm_compute in a in
      let b' := eval vm_compute in b in
      change a with a' in L; change b with b' in L
  end.

Lemma exempt_name_starts_unquoted (N rest rest' : string) :
  lower N = "annals of intensive care" ->
  N +:+ clause_end +:+ rest <> clause_end +:+ rest'.
Proof.
  intros E same. destruct N as [|c N]; [discriminate|].
  unfold clause_end in same. rewrite !sapp_cons in same. injection same as -> _.
  vm_compute in E. discriminate.
Qed.

(** X14: distinct journal names give distinct queries. *)
Theorem construct_query_injective (N N' : string)
    (same : construct_query N = construct_query N') :
  N = N'.
Proof.
  rewrite !construct_query_unfold, !journal_clause_shape in same.
  apply String.app_inj in same. rewrite !sapp_assoc, !sapp_cons in same.
  injection same as same.
  destruct (String.eqb_spec (lower N) "annals of intensive care") as [E|_],
           (String.eqb_spec (lower N') "annals of intensive care") as [E'|_].
  - now apply sapp_cancel_r in same.
  - exfalso. pose proof (f_equal String.length same) as L.
    pose proof (f_equal String.length E) as LE.
    rewrite lower_length in LE. simpl in LE.
    rewrite (slength_app N), (slength_app N') in L. closed_lengths L.
    destruct N' as [|c N']; [|simpl in L; lia].
    now apply (exempt_name_starts_unquoted N _ _ E) in same.
  - exfalso. pose proof (f_equal String.length same) as L.
    pose proof (f_equal String.length E') as LE.
    rewrite lower_length in LE. simpl in LE.
    rewrite (slength_app N), (slength_app N') in L. closed_lengths L.
    destruct N as [|c N]; [|simpl in L; lia].
    symmetry in same. now apply (exempt_name_starts_unquoted N' _ _ E') in same.
  - now apply sapp_cancel_r in same.
Qed.

Lemma construct_query_injective_witness : "Lancet" = "Lancet".
Proof. apply (construct_query_injective "Lancet" "Lancet"). reflexivity. Defined.

(** *** Parentheses *)

Lemma count_char_app (c : ascii) (s t : string) :
  count_char c (s +:+ t) = count_char c s + count_char c t.
Proof.
  induction s as [|a s IH]; [reflexivity|].
  rewrite sapp_cons. simpl. rewrite IH. lia.
Qed.

Lemma group_end_app (s rest : string) (d i k : nat) :
  group_end s d i = Some k -> group_end (s +:+ rest) d i = Some k.
Proof.
  revert d i. induction s as [|c s IH]; intros d i; [discriminate|].
  rewrite sapp_cons. simpl.
  destruct (Ascii.eqb c "("); [apply IH|].
  destruct (Ascii.eqb c ")"); [|apply IH].
  destruct d as [|[|d]]; [discriminate|trivial|apply IH].
Qed.

Lemma count_journal_clause (c : ascii) (N : string) :
  count_char c (journal_clause N) = count_char c (journal_clause "") + count_char c N.
Proof.
  rewrite !journal_clause_shape, !count_char_app. cbn [count_char]. lia.
Qed.

(** The counts over the fixed texts, all but those over [N]. *)
Ltac closed_counts N :=
  repeat match goal with
         | |- context [count_char ?c ?s] =>
             tryif constr_eq s N then fail
             else (let v := eval vm_compute in (count_char c s) in
                   change (count_char c s) with v)
         end.

(** X15: the query has one closing parenthesis more than it has opening ones,
    the parentheses of the journal name set aside: [CRITICAL_QUERY] closes
    one group more than it opens. *)
Theorem construct_query_one_more_closing (N : string) :
  count_char ")" (construct_query N) + count_char "(" N =
  count_char "(" (construct_query N) + count_char ")" N + 1.
Proof.
  rewrite construct_query_unfold, !count_char_app, !(count_journal_clause _ N).
  destruct (String.eqb (lower N) "annals of intensive care");
    closed_counts N; lia.
Qed.

(** X16: the parenthesis that opens the query is closed by the last character
    of [CRITICAL_QUERY]: the journal clause, the date clause and the
    human-subjects clause that follow stand outside that group. *)
Theorem first_group_ends_with_critical_query (N : string) :
  exists rest,
    construct_query N =
    ("(" +:+ config.RCT_QUERY +:+ " AND " +:+ config.CRITICAL_QUERY) +:+
    " AND " +:+ journal_clause N +:+ rest /\
    group_end (construct_query N) 0 0 =
    Some (String.length ("(" +:+ config.RCT_QUERY +:+ " AND " +:+ config.CRITICAL_QUERY) - 1).
Proof.
  eexists. split.
  - rewrite construct_query_unfold. rewrite !sapp_assoc. reflexivity.
  - rewrite construct_query_unfold.
    replace (("(" +:+ config.RCT_QUERY +:+ " AND " +:+ config.CRITICAL_QUERY +:+ " AND ") +:+
             journal_clause N +:+ _)
      with (("(" +:+ config.RCT_QUERY +:+ " AND " +:+ config.CRITICAL_QUERY) +:+
            " AND " +:+ journal_clause N +:+
            (" AND " +:+ config.DATE_QUERY +:+ " " +:+
             (if String.eqb (lower N) "annals of intensive care"
              then ")" else "AND " +:+ config.HUMANS_FILTER +:+ ")") +:+
             " NOT " +:+ config.EXCLUSION_QUERY))
      by now rewrite !sapp_assoc.
    apply group_end_app. vm_compute. reflexivity.
Qed.
